(** * Staircase Heartbeat Discrimination Task: a shallow embedding

    The development follows [task_main/s_hdt.py] (the session script
    [run_s_hdt]) and [task_main/s_hdt_functions.py] (the trial, rating and
    questionnaire routines).  Python values are modelled as they occur in
    the scripts: text as [string], [list] as [list], integers as [Z].
    Keyboard, mouse and serial port are scripted inputs that the routines
    consume call by call; what the routines do to the outside (serial
    writes, pauses, error banners, rows appended to the log file) is
    recorded in order.  Rendering calls ([draw], [flip]) carry no data and
    are left out; the screens a routine sets up are recorded so that the
    order of trials, ratings and questions can be read off.  The staircase
    objects are PsychoPy's [data.StairHandler]; that class is not part of
    the task's sources and is modelled after section 4.1 of the
    specification. *)

From Stdlib Require Import ZArith List String Ascii Bool Lia Arith QArith.
Import ListNotations.
Local Open Scope string_scope.
Local Open Scope Z_scope.

(** ** Python text primitives *)

Module Py.

(** Text is ASCII here: file names, key names and serial tokens of the task
    are all ASCII. *)

Definition len (s : string) : Z := Z.of_nat (String.length s).

Fixpoint startswith (s p : string) : bool :=
  match p, s with
  | EmptyString, _ => true
  | String c p', String d s' => Ascii.eqb c d && startswith s' p'
  | String _ _, EmptyString => false
  end.

Fixpoint drop (n : nat) (s : string) : string :=
  match n, s with
  | O, _ => s
  | S n', String _ s' => drop n' s'
  | S _, EmptyString => EmptyString
  end.

Fixpoint take (n : nat) (s : string) : string :=
  match n, s with
  | O, _ => EmptyString
  | S n', String c s' => String c (take n' s')
  | S _, EmptyString => EmptyString
  end.

Definition endswith (s p : string) : bool :=
  (String.length p <=? String.length s)%nat
  && String.eqb (drop (String.length s - String.length p) s) p.

(** An index of a slice: negative indices count from the end, and the
    result is clamped to [0, len s]. *)
Definition slice_index (s : string) (i : Z) : nat :=
  let i' := if i <? 0 then i + len s else i in
  Z.to_nat (Z.min (Z.max i' 0) (len s)).

(** [s[start:stop]] *)
Definition slice (s : string) (start stop : Z) : string :=
  let a := slice_index s start in
  let b := slice_index s stop in
  take (b - a) (drop a s).

(** [s[:-1]] *)
Definition drop_last (s : string) : string := slice s 0 (-1).

Definition is_upper (c : ascii) : bool :=
  let n := nat_of_ascii c in ((65 <=? n) && (n <=? 90))%nat.
Definition is_lower (c : ascii) : bool :=
  let n := nat_of_ascii c in ((97 <=? n) && (n <=? 122))%nat.
Definition is_alpha (c : ascii) : bool := is_upper c || is_lower c.
Definition is_digit (c : ascii) : bool :=
  let n := nat_of_ascii c in ((48 <=? n) && (n <=? 57))%nat.
Definition is_space (c : ascii) : bool :=
  let n := nat_of_ascii c in
  ((9 <=? n) && (n <=? 13) || (28 <=? n) && (n <=? 32))%nat.

Fixpoint all_chars (p : ascii -> bool) (s : string) : bool :=
  match s with
  | EmptyString => true
  | String c s' => p c && all_chars p s'
  end.

(** [str.isalpha()], [str.isdigit()]: every character in the class and at
    least one character. *)
Definition isalpha (s : string) : bool :=
  negb (String.eqb s "") && all_chars is_alpha s.
Definition isdigit (s : string) : bool :=
  negb (String.eqb s "") && all_chars is_digit s.

Definition lower_char (c : ascii) : ascii :=
  if is_upper c then ascii_of_nat (nat_of_ascii c + 32) else c.
Fixpoint lower (s : string) : string :=
  match s with
  | EmptyString => EmptyString
  | String c s' => String (lower_char c) (lower s')
  end.

(** [ord] of a character, and of a one-character string ([TypeError]
    on any other string). *)
Definition ord_char (c : ascii) : Z := Z.of_nat (nat_of_ascii c).
Definition ord (s : string) : option Z :=
  match s with
  | String c EmptyString => Some (ord_char c)
  | _ => None
  end.

(** [chr], on the code points of the model's alphabet. *)
Definition chr (n : Z) : string :=
  String (ascii_of_nat (Z.to_nat n)) EmptyString.

(** [str.strip()]: leading and trailing white space removed. *)
Fixpoint lstrip (s : string) : string :=
  match s with
  | EmptyString => EmptyString
  | String c s' => if is_space c then lstrip s' else s
  end.
Fixpoint rstrip (s : string) : string :=
  match s with
  | EmptyString => EmptyString
  | String c s' =>
      match rstrip s' with
      | EmptyString => if is_space c then EmptyString else String c EmptyString
      | r => String c r
      end
  end.
Definition strip (s : string) : string := rstrip (lstrip s).

(** [int(s)] for a string of decimal digits; no value is given to other
    strings (Python reads some of them and raises [ValueError] on the
    rest). *)
Fixpoint int_acc (acc : Z) (s : string) : Z :=
  match s with
  | EmptyString => acc
  | String c s' => int_acc (10 * acc + (Z.of_nat (nat_of_ascii c) - 48)) s'
  end.
Definition int (s : string) : option Z :=
  if isdigit s then Some (int_acc 0 s) else None.

(** [x in xs] for a list of strings. *)
Definition mem (x : string) (xs : list string) : bool :=
  existsb (String.eqb x) xs.

(** Decimal numeral of an integer, as [str] prints it. *)
Definition digit_char (d : Z) : ascii := ascii_of_nat (Z.to_nat (48 + d)).
Fixpoint nat_digits (fuel : nat) (n : Z) (acc : string) : string :=
  match fuel with
  | O => acc
  | S fuel' =>
      let acc' := String (digit_char (n mod 10)) acc in
      if n / 10 =? 0 then acc' else nat_digits fuel' (n / 10) acc'
  end.
Definition str_int (n : Z) : string :=
  if n <? 0 then "-" ++ nat_digits (Z.to_nat (Z.log2 (- n)) + 1) (- n) ""
  else nat_digits (Z.to_nat (Z.log2 n) + 1) n "".

End Py.

(** ** Choice of the log file name ([run_s_hdt], section LOGGING) *)

Module LogFile.
Import Py.

(** [base_name = f"sub-{participant_id}_s_hdt"] *)
Definition base_name (participant_id : string) : string :=
  "sub-" ++ participant_id ++ "_s_hdt".

(** What one entry of [existing_files] appends to [indices]: nothing for
    the base file, nothing unless the entry is [base_name + "_" + suffix +
    ".tsv"] with a one-letter suffix, else [ord(suffix.lower()) - ord('a')].
    File names are texts of one-byte characters, as ASCII names are; a
    name with other characters, where Python counts and classifies code
    points, is outside the embedding. *)
Definition suffix_index (base_name file : string) : option Z :=
  if String.eqb file (base_name ++ ".tsv") then None
  else if startswith file (base_name ++ "_") && endswith file ".tsv" then
    let suffix := slice file (len base_name + 1) (-4) in
    if (len suffix =? 1) && isalpha suffix then
      match ord (lower suffix) with
      | Some o => Some (o - ord_char "a")
      | None => None
      end
    else None
  else None.

Fixpoint collect_indices (base_name : string) (existing_files : list string)
  : list Z :=
  match existing_files with
  | [] => []
  | file :: rest =>
      match suffix_index base_name file with
      | Some i => i :: collect_indices base_name rest
      | None => collect_indices base_name rest
      end
  end.

(** [max(indices)] of a non-empty list *)
Fixpoint list_max (x : Z) (xs : list Z) : Z :=
  match xs with
  | [] => x
  | y :: ys => list_max (Z.max x y) ys
  end.

Definition next_index (indices : list Z) : Z :=
  match indices with
  | [] => 0
  | i :: rest => list_max i rest + 1
  end.

Definition next_suffix (indices : list Z) : string :=
  chr (ord_char "a" + next_index indices).

(** The name of the log file inside [save_dir] (the script joins it to
    [save_dir] afterwards), given the directory listing
    [os.listdir(save_dir)]; the base file exists when the listing holds
    its name. *)
Definition csv_file_name (participant_id : string) (listdir : list string)
  : string :=
  let base_name := base_name participant_id in
  if mem (base_name ++ ".tsv") listdir then
    let existing_files := filter (fun f => startswith f base_name) listdir in
    let indices := collect_indices base_name existing_files in
    base_name ++ "_" ++ next_suffix indices ++ ".tsv"
  else base_name ++ ".tsv".

End LogFile.


(** ** Numbers of the task

    Delays are Python numbers.  The training delays are drawn from
    [range(0, 601, 50)] and are [int]s; the staircases are built with
    [startVal=400.0], [minVal=0.0], [maxVal=1000.0] and hand out [float]s.
    Every float the task computes has an integral value (a start value
    plus or minus steps of 50, or a bound), so [PyFloat n] stands for the
    float of value [n], which [str] prints as the numeral of [n] followed
    by [.0] (below 1e16, where Python switches to an exponent). *)

Inductive PyNum : Type :=
| PyInt (n : Z)
| PyFloat (n : Z).

Definition num_val (v : PyNum) : Z :=
  match v with PyInt n => n | PyFloat n => n end.

Definition py_str (v : PyNum) : string :=
  match v with
  | PyInt n => Py.str_int n
  | PyFloat n => Py.str_int n ++ ".0"
  end.

(** [a + b], [a - b]: an [int] only when both operands are. *)
Definition py_add (a b : PyNum) : PyNum :=
  match a, b with
  | PyInt x, PyInt y => PyInt (x + y)
  | _, _ => PyFloat (num_val a + num_val b)
  end.
Definition py_sub (a b : PyNum) : PyNum :=
  match a, b with
  | PyInt x, PyInt y => PyInt (x - y)
  | _, _ => PyFloat (num_val a - num_val b)
  end.

Inductive Exn : Type :=
| IndexError
| ValueError
| InvalidStateError
| InvalidResponseError.

(** ** The staircase engine *)

Module Engine.

(** Modelled from the spec: the direction of the last move, of section
    3; the class that keeps it, PsychoPy's [data.StairHandler], is not
    part of the task's sources. *)
Inductive Direction : Type := UP | DOWN | NONE.

(** Modelled from the spec: the response categories of [applyResponse]
    (the class that takes them is missing). *)
Inductive Code : Type := REPEAT | INCREASE_SIGNAL | DECREASE_SIGNAL.

(** Modelled from the spec: the state of one staircase, field by field as
    in the data model of section 3 (the [StairHandler] object itself is
    missing). *)
Record Staircase : Type := mkStaircase {
  name : string;
  currentValue : PyNum;
  startValue : PyNum;
  minValue : PyNum;
  maxValue : PyNum;
  stepSize : PyNum;
  direction : Direction;
  consecutiveUp : nat;
  consecutiveDown : nat;
  nUp : nat;
  nDown : nat;
  reversalCount : nat;
  targetReversals : nat;
  maxTrials : nat;
  trialsRun : nat;
  responseHistory : list Code;
  finished : bool
}.

(** Modelled from the spec: the staircase object is PsychoPy's
    [data.StairHandler], whose code is not part of the task's sources.  The
    constructor takes the keyword arguments that [run_s_hdt] passes
    ([stepType='lin'], [originPath=-1], [applyInitialRule=False] are the
    same for every staircase) and gives the initial state of section 4.1:
    [RUNNING], [currentValue = startValue], [direction = NONE], counters
    zeroed. *)
Definition StairHandler (startVal stepSizes : PyNum) (nReversals nTrials : nat)
  (nUp nDown : nat) (minVal maxVal : PyNum) (name : string) : Staircase :=
  {| name := name;
     currentValue := startVal;
     startValue := startVal;
     minValue := minVal;
     maxValue := maxVal;
     stepSize := stepSizes;
     direction := NONE;
     consecutiveUp := 0;
     consecutiveDown := 0;
     nUp := nUp;
     nDown := nDown;
     reversalCount := 0;
     targetReversals := nReversals;
     maxTrials := nTrials;
     trialsRun := 0;
     responseHistory := [];
     finished := false |}.

(** Modelled from the spec: [nextValue()] of section 4.1.  It returns
    [currentValue] and leaves the engine as it is; on a finished staircase
    it fails with [InvalidStateError]. *)
Definition nextValue (s : Staircase) : Exn + PyNum :=
  if finished s then inl InvalidStateError else inr (currentValue s).

(** Modelled from the spec: the clamp of [currentValue] to
    [[minValue, maxValue]] in step 3c of [applyResponse]. *)
Definition clamp (lo hi v : PyNum) : PyNum :=
  if num_val v <? num_val lo then lo
  else if num_val hi <? num_val v then hi
  else v.

Definition direction_eqb (a b : Direction) : bool :=
  match a, b with
  | UP, UP | DOWN, DOWN | NONE, NONE => true
  | _, _ => false
  end.

(** Modelled from the spec: step 2 of [applyResponse], which counts the
    trial, updates the matching consecutive counter and resets the other
    one. *)
Definition count_response (code : Code) (s : Staircase) : Staircase :=
  {| name := name s;
     currentValue := currentValue s;
     startValue := startValue s;
     minValue := minValue s;
     maxValue := maxValue s;
     stepSize := stepSize s;
     direction := direction s;
     consecutiveUp :=
       match code with INCREASE_SIGNAL => S (consecutiveUp s) | _ => 0%nat end;
     consecutiveDown :=
       match code with DECREASE_SIGNAL => S (consecutiveDown s) | _ => 0%nat end;
     nUp := nUp s;
     nDown := nDown s;
     reversalCount := reversalCount s;
     targetReversals := targetReversals s;
     maxTrials := maxTrials s;
     trialsRun := S (trialsRun s);
     responseHistory := responseHistory s ++ [code];
     finished := finished s |}.

(** Modelled from the spec: step 3 of [applyResponse], a threshold
    crossing in direction [d]: a reversal is counted when there was a
    direction and it differs, the value moves by the step and is clamped,
    both consecutive counters are reset. *)
Definition cross_threshold (d : Direction) (s : Staircase) : Staircase :=
  {| name := name s;
     currentValue :=
       clamp (minValue s) (maxValue s)
         (match d with
          | UP => py_add (currentValue s) (stepSize s)
          | DOWN => py_sub (currentValue s) (stepSize s)
          | NONE => currentValue s
          end);
     startValue := startValue s;
     minValue := minValue s;
     maxValue := maxValue s;
     stepSize := stepSize s;
     direction := d;
     consecutiveUp := 0;
     consecutiveDown := 0;
     nUp := nUp s;
     nDown := nDown s;
     reversalCount :=
       if negb (direction_eqb (direction s) NONE)
          && negb (direction_eqb d (direction s))
       then S (reversalCount s) else reversalCount s;
     targetReversals := targetReversals s;
     maxTrials := maxTrials s;
     trialsRun := trialsRun s;
     responseHistory := responseHistory s;
     finished := finished s |}.

(** Modelled from the spec: the test of step 4 of [applyResponse], and
    the move to [FINISHED]. *)
Definition caps_reached (s : Staircase) : bool :=
  (maxTrials s <=? trialsRun s)%nat || (targetReversals s <=? reversalCount s)%nat.

Definition set_finished (s : Staircase) : Staircase :=
  {| name := name s;
     currentValue := currentValue s;
     startValue := startValue s;
     minValue := minValue s;
     maxValue := maxValue s;
     stepSize := stepSize s;
     direction := direction s;
     consecutiveUp := consecutiveUp s;
     consecutiveDown := consecutiveDown s;
     nUp := nUp s;
     nDown := nDown s;
     reversalCount := reversalCount s;
     targetReversals := targetReversals s;
     maxTrials := maxTrials s;
     trialsRun := trialsRun s;
     responseHistory := responseHistory s;
     finished := true |}.

(** Modelled from the spec: [applyResponse(code)] of section 4.1.  A call
    on a finished staircase fails with [InvalidStateError]; [REPEAT]
    returns at once; any other code is counted (step 2), moves the value
    when its consecutive counter reaches its threshold (step 3) and
    finishes the staircase when a cap is reached (step 4). *)
Definition applyResponse (code : Code) (s : Staircase) : Exn + Staircase :=
  if finished s then inl InvalidStateError
  else
    match code with
    | REPEAT => inr s
    | _ =>
        let s1 := count_response code s in
        let s2 :=
          match code with
          | INCREASE_SIGNAL =>
              if (nUp s1 <=? consecutiveUp s1)%nat
              then cross_threshold UP s1 else s1
          | _ =>
              if (nDown s1 <=? consecutiveDown s1)%nat
              then cross_threshold DOWN s1 else s1
          end in
        inr (if caps_reached s2 then set_finished s2 else s2)
    end.

(** Modelled from the spec: the response codes of the concrete task.
    "same time" ([-1]) is [REPEAT]; "before" ([0]) moves up and "after"
    ([1]) moves down, as the comment at the code table of the trial
    routines has it; any other code is an [InvalidResponseError]. *)
Definition decode (response_code : Z) : option Code :=
  if response_code =? -1 then Some REPEAT
  else if response_code =? 0 then Some INCREASE_SIGNAL
  else if response_code =? 1 then Some DECREASE_SIGNAL
  else None.

(** Modelled from the spec: [staircase.addResponse(response_code)], the
    name under which the script calls [applyResponse]. *)
Definition addResponse (response_code : Z) (s : Staircase) : Exn + Staircase :=
  match decode response_code with
  | Some code => applyResponse code s
  | None => inl InvalidResponseError
  end.

End Engine.

(** ** The outside world *)

(** One look at the mouse, taken once per pass of a response loop:
    [contains i] is [button_rect.contains(pos)] for the [i]-th button,
    [pressed] is [mouse.getPressed()[0]] and [mouse_x] the first component
    of [mouse.getPos()]. *)
Record MouseSnap : Type := mkMouse {
  contains : nat -> bool;
  pressed : bool;
  mouse_x : Q
}.

(** A cell of a log row.  Slider positions are floats; they are modelled
    by the rational the script computes, rounding apart. *)
Inductive Cell : Type :=
| CStr (s : string)
| CNum (v : PyNum)
| CRating (q : Q).

Definition Row : Type := list Cell.

(** The screens a routine sets up. *)
Inductive Screen : Type :=
| HeartImage          (* the heart icon that opens a trial *)
| BeepsQuestion       (* "Are the beeps ... your heartbeat?" and its buttons *)
| AnotherQuestion     (* "Would you like to:" and its buttons *)
| ConfidenceQuestion  (* "How confident are you from 0 (Guess) to 100 ..." *)
| InvalidInput        (* "INVALID INPUT. Please enter a number ..." *)
| Slider (label : string). (* a questionnaire item with its slider *)

Inductive Event : Type :=
| Show (s : Screen)
| Prompt (input_text : string) (* the confidence box drawn with its content *)
| Wait (ms : Z)                (* core.wait, in milliseconds *)
| SerialWrite (bytes : string) (* ser.write *)
| SerialRead (data : string)   (* ser.read(6), decoded *)
| CsvClose                     (* csv_file.close() *)
| WinClose.                    (* win.close() *)

Record World : Type := mkWorld {
  kb : list (list string);   (* what the successive keyboard polls return *)
  mouse : list MouseSnap;    (* the successive looks at the mouse *)
  serial : list string;      (* what the successive ser.read(6) return *)
  uniform : list Q;          (* the successive random.uniform(20, 80) *)
  csv : list Row;            (* rows of the log file, oldest first *)
  trace : list Event         (* what was done so far, oldest first *)
}.

Definition set_kb (k : list (list string)) (w : World) : World :=
  mkWorld k (mouse w) (serial w) (uniform w) (csv w) (trace w).
Definition set_mouse (m : list MouseSnap) (w : World) : World :=
  mkWorld (kb w) m (serial w) (uniform w) (csv w) (trace w).
Definition set_serial (s : list string) (w : World) : World :=
  mkWorld (kb w) (mouse w) s (uniform w) (csv w) (trace w).
Definition set_uniform (u : list Q) (w : World) : World :=
  mkWorld (kb w) (mouse w) (serial w) u (csv w) (trace w).
Definition add_row (r : Row) (w : World) : World :=
  mkWorld (kb w) (mouse w) (serial w) (uniform w) (csv w ++ [r]) (trace w).
Definition add_event (e : Event) (w : World) : World :=
  mkWorld (kb w) (mouse w) (serial w) (uniform w) (csv w) (trace w ++ [e]).

(** How a routine ends: it returns, the interpreter exits ([core.quit()]),
    the scripted input runs out while the routine waits for more, or an
    exception escapes. *)
Inductive Outcome (A : Type) : Type :=
| Done (a : A) (w : World)
| Quit (w : World)
| Blocked (w : World)
| Raised (e : Exn) (w : World).
Arguments Done {A} a w.
Arguments Quit {A} w.
Arguments Blocked {A} w.
Arguments Raised {A} e w.

Definition M (A : Type) : Type := World -> Outcome A.

Definition ret {A} (a : A) : M A := fun w => Done a w.

Definition bind {A B} (c : M A) (k : A -> M B) : M B :=
  fun w =>
    match c w with
    | Done a w' => k a w'
    | Quit w' => Quit w'
    | Blocked w' => Blocked w'
    | Raised e w' => Raised e w'
    end.

Declare Scope task_scope.
Delimit Scope task_scope with task.
Notation "x <- c ;; k" := (bind c (fun x => k))
  (at level 61, c at next level, right associativity) : task_scope.
Notation "c ;; k" := (bind c (fun _ => k))
  (at level 61, right associativity) : task_scope.
Local Open Scope task_scope.

Definition emit (e : Event) : M unit := fun w => Done tt (add_event e w).
Definition core_quit {A} : M A := fun w => Quit w.
Definition raise {A} (e : Exn) : M A := fun w => Raised e w.
Definition lift {A} (r : Exn + A) : M A :=
  match r with inl e => raise e | inr a => ret a end.

(** [event.getKeys()] *)
Definition getKeys : M (list string) :=
  fun w =>
    match kb w with
    | [] => Blocked w
    | keys :: rest => Done keys (set_kb rest w)
    end.

(** One [csv_writer.writerow(row)] on the log file, opened in append mode
    and closed again around the write. *)
Definition writerow (row : Row) : M unit := fun w => Done tt (add_row row w).

(** The world in which an outcome leaves off. *)
Definition world_of {A} (o : Outcome A) : World :=
  match o with
  | Done _ w => w
  | Quit w => w
  | Blocked w => w
  | Raised _ w => w
  end.

(** ** The routines of [s_hdt_functions.py] *)

Module Functions.
Import Py.

(** *** [wait_for_key_press] *)

Fixpoint wait_for_key_press_from (polls : list (list string)) : M unit :=
  fun w =>
    match polls with
    | [] => Blocked (set_kb [] w)
    | keys :: rest =>
        let w1 := set_kb rest w in
        if mem "return" keys then Done tt w1
        else if mem "escape" keys then Quit w1
        else wait_for_key_press_from rest w1
    end.

Definition wait_for_key_press : M unit :=
  fun w => wait_for_key_press_from (kb w) w.

(** *** [get_numeric_input] *)

Definition keypad_mapping : list (string * string) :=
  [("num_0", "0"); ("num_1", "1"); ("num_2", "2"); ("num_3", "3");
   ("num_4", "4"); ("num_5", "5"); ("num_6", "6"); ("num_7", "7");
   ("num_8", "8"); ("num_9", "9")].

Fixpoint lookup (key : string) (d : list (string * string)) : option string :=
  match d with
  | [] => None
  | (k, v) :: d' => if String.eqb key k then Some v else lookup key d'
  end.

Definition keyList : list string :=
  ["0"; "1"; "2"; "3"; "4"; "5"; "6"; "7"; "8"; "9";
   "num_0"; "num_1"; "num_2"; "num_3"; "num_4"; "num_5"; "num_6"; "num_7";
   "num_8"; "num_9"; "backspace"; "return"; "escape"].

(** The test guarding [return int(input_text)]. *)
Definition valid_input (input_text : string) : bool :=
  isdigit input_text
  && match int input_text with
     | Some n => (0 <=? n) && (n <=? 100)
     | None => false
     end.

(** [input_text += d], under the three-character limit. *)
Definition type_char (input_text d : string) : string :=
  if len input_text <? 3 then input_text ++ d else input_text.

(** The body [for key in keys: ...]: [inr n] when the routine returns [n]
    from inside the loop, [inl input_text] when the loop runs to its end. *)
Fixpoint handle_keys (keys : list string) (input_text : string)
  : M (string + Z) :=
  match keys with
  | [] => ret (inl input_text)
  | key :: keys' =>
      if String.eqb key "return" then
        if valid_input input_text then
          match int input_text with
          | Some n => ret (inr n)
          | None => raise ValueError
          end
        else emit (Show InvalidInput) ;; handle_keys keys' input_text
      else if String.eqb key "backspace" then
        handle_keys keys' (drop_last input_text)
      else
        match lookup key keypad_mapping with
        | Some d => handle_keys keys' (type_char input_text d)
        | None =>
            if String.eqb key "escape" then core_quit
            else handle_keys keys' (type_char input_text key)
        end
  end.

(** The [while True] loop.  [event.waitKeys(keyList=...)] waits for a poll
    that holds a key of [keyList] and returns the keys of the list; the
    box is drawn anew before each wait. *)
Fixpoint get_numeric_input_from (polls : list (list string))
  (input_text : string) : M Z :=
  fun w =>
    match polls with
    | [] => Blocked (set_kb [] w)
    | poll :: rest =>
        let w1 := set_kb rest w in
        match filter (fun k => mem k keyList) poll with
        | [] => get_numeric_input_from rest input_text w1
        | keys =>
            match handle_keys keys input_text w1 with
            | Done (inr n) w2 => Done n w2
            | Done (inl input_text') w2 =>
                get_numeric_input_from rest input_text'
                  (add_event (Prompt input_text') w2)
            | Quit w2 => Quit w2
            | Blocked w2 => Blocked w2
            | Raised e w2 => Raised e w2
            end
        end
    end.

Definition get_numeric_input : M Z :=
  fun w =>
    let w0 := add_event (Prompt "") (add_event (Show ConfidenceQuestion) w) in
    get_numeric_input_from (kb w0) "" w0.

(** *** The trial routines *)

(** The wait for the device: [ser.read(6)] until it strips to [ENDED;],
    with an escape check and a pause of 0.1 s after every other read.
    The reads in store are the texts that [.decode('utf-8')] makes of
    the bytes received; bytes that do not decode, on which the script
    stops with [UnicodeDecodeError], are not part of the embedding. *)
Fixpoint await_ended_from (reads : list string) : M unit :=
  fun w =>
    match reads with
    | [] => Blocked (set_serial [] w)
    | received_data :: rest =>
        let w1 := add_event (SerialRead received_data) (set_serial rest w) in
        if String.eqb (strip received_data) "ENDED;" then Done tt w1
        else
          match getKeys w1 with
          | Done keys w2 =>
              if mem "escape" keys then Quit w2
              else await_ended_from rest (add_event (Wait 100) w2)
          | Quit w2 => Quit w2
          | Blocked w2 => Blocked w2
          | Raised e w2 => Raised e w2
          end
    end.

Definition await_ended : M unit := fun w => await_ended_from (serial w) w.

(** The branch [if is_integrated_external:] of a trial. *)
Definition device_exchange (current_delay : PyNum) : M unit :=
  let delay_command := "DELAY" ++ py_str current_delay ++ ";" in
  emit (SerialWrite delay_command) ;;
  let start_command := "START;" in
  emit (SerialWrite start_command) ;;
  await_ended ;;
  emit (Wait 1000).

(** The first button under the pointer, among [n] buttons. *)
Fixpoint first_clicked (i : nat) (buttons_clicked : list bool) : option nat :=
  match buttons_clicked with
  | [] => None
  | clicked :: rest => if clicked then Some i else first_clicked (S i) rest
  end.

Definition selected_button_index (m : MouseSnap) (n : nat) : option nat :=
  first_clicked 0 (map (contains m) (seq 0 n)).

(** The loop [while response is None:] over [n] buttons.  The click is
    looked at before the escape key, and an escape seen in the same pass
    still quits. *)
Fixpoint record_response_from (snaps : list MouseSnap) (n : nat) : M nat :=
  fun w =>
    match snaps with
    | [] => Blocked (set_mouse [] w)
    | m :: rest =>
        let w1 := set_mouse rest w in
        let response :=
          if pressed m then selected_button_index m n else None in
        match getKeys w1 with
        | Done keys w2 =>
            if mem "escape" keys then Quit w2
            else
              match response with
              | Some r => Done r w2
              | None => record_response_from rest n w2
              end
        | Quit w2 => Quit w2
        | Blocked w2 => Blocked w2
        | Raised e w2 => Raised e w2
        end
    end.

Definition record_response (n : nat) : M nat :=
  fun w => record_response_from (mouse w) n w.

Definition buttons : list string := ["before"; "same time"; "after"].

(** [response_code = [0, -1, 1][response]] and the returned pair. *)
Definition code_response (response : nat) : M (string * Z) :=
  match nth_error [0; -1; 1] response, nth_error buttons response with
  | Some response_code, Some button => ret (button, response_code)
  | _, _ => raise IndexError
  end.

(** The two trial routines have the same body.  It is taken with
    [if_debug] off, as [run_s_hdt()] runs it: with [if_debug] on, the
    routines also draw the value of the delay over the heart image and
    print the response. *)
Definition trial_body (current_delay : PyNum) (is_integrated_external : bool)
  : M (string * Z) :=
  emit (Show HeartImage) ;;
  emit (Wait 500) ;;
  (if is_integrated_external then device_exchange current_delay
   else emit (Wait 2000)) ;;
  emit (Show BeepsQuestion) ;;
  response <- record_response (List.length buttons) ;;
  emit (Wait 2000) ;;
  code_response response.

Definition run_set_delay_trial := trial_body.
Definition run_staircase_trial := trial_body.

(** *** [ask_run_another] *)

Definition options : list string := ["again"; "stop"].

Definition ask_run_another : M string :=
  emit (Show AnotherQuestion) ;;
  response <- record_response (List.length options) ;;
  emit (Wait 2000) ;;
  match nth_error options response with
  | Some option => ret option
  | None => raise IndexError
  end.

(** *** [get_post_task_qs] *)

Definition questions : list (string * string * list string) :=
  [("TaskGeneral", "I find the task", ["Very unpleasant"; "Very pleasant"]);
   ("Difficulty", "I find the task", ["Very easy"; "Very hard"]);
   ("Breathless", "I feel breathless / have trouble breathing.",
    ["Not at all"; "Completely"])].

(** The loop [while response is None:] of one question, from the slider
    position [markerPos]. *)
Fixpoint question_response_from (polls : list (list string))
  (use_mouse : bool) (scale : list string) (markerPos : Q) : M Cell :=
  fun w =>
    match polls with
    | [] => Blocked (set_kb [] w)
    | keys :: rest =>
        let w1 := set_kb rest w in
        if mem "escape" keys then Quit w1
        else if use_mouse then
          match mouse w1 with
          | [] => Blocked w1
          | m :: snaps =>
              let w2 := set_mouse snaps w1 in
              if pressed m then Done (CRating markerPos) (add_event (Wait 1000) w2)
              else
                let slider_value := ((mouse_x m + 300) / 6)%Q in
                let markerPos' :=
                  if Qle_bool 0 slider_value && Qle_bool slider_value 100
                  then slider_value else markerPos in
                question_response_from rest use_mouse scale markerPos' w2
          end
        else
          match rest with
          | [] => Blocked (set_kb [] w1)
          | keys2 :: rest2 =>
              let w2 := set_kb rest2 w1 in
              if mem "left" keys2
              then Done (CNum (PyInt 0)) (add_event (Wait 1000) w2)
              else if mem "right" keys2
              then Done (CNum (PyInt (Z.of_nat (List.length scale) - 1)))
                        (add_event (Wait 1000) w2)
              else question_response_from rest2 use_mouse scale markerPos w2
          end
    end.

(** One question: the slider starts at [random.uniform(20, 80)]; the
    answer is written as one row. *)
Definition ask_question (use_mouse : bool)
  (q : string * string * list string) : M unit :=
  let '(label, question, scale) := q in
  fun w =>
    match uniform w with
    | [] => Blocked w
    | initial_position :: draws =>
        let w1 := add_event (Show (Slider label)) (set_uniform draws w) in
        (response <- (fun w' => question_response_from (kb w') use_mouse scale
                                  initial_position w') ;;
         writerow [CStr "Post_task_question"; CStr label; response;
                   CStr "NA"; CStr "NA"; CStr "NA"]) w1
    end.

(** [for label, question, scale in questions: ...] *)
Fixpoint for_questions (use_mouse : bool)
  (qs : list (string * string * list string)) : M unit :=
  match qs with
  | [] => ret tt
  | q :: qs' => ask_question use_mouse q ;; for_questions use_mouse qs'
  end.

Definition get_post_task_qs (use_mouse : bool) : M unit :=
  for_questions use_mouse questions.

(** *** [show_instructions] *)

(** One page of instructions: [escape] quits, [left] returns
    ['previous'], [return] returns ['next'], looked at in this order. *)
Fixpoint show_instructions_from (polls : list (list string)) : M string :=
  fun w =>
    match polls with
    | [] => Blocked (set_kb [] w)
    | keys :: rest =>
        let w1 := set_kb rest w in
        if mem "escape" keys then Quit w1
        else if mem "left" keys then Done "previous" w1
        else if mem "return" keys then Done "next" w1
        else show_instructions_from rest w1
    end.

Definition show_instructions : M string :=
  fun w => show_instructions_from (kb w) w.

(** *** [get_confidence_mouse] *)

(** The loop [while response is None:] from the slider position
    [markerPos]: a left click takes the position as it stands, any other
    pass moves the marker to [(mouse_x + 300) / 6] when that lies between
    0 and 100. *)
Fixpoint confidence_mouse_from (polls : list (list string)) (markerPos : Q)
  : M Q :=
  fun w =>
    match polls with
    | [] => Blocked (set_kb [] w)
    | keys :: rest =>
        let w1 := set_kb rest w in
        if mem "escape" keys then Quit w1
        else
          match mouse w1 with
          | [] => Blocked w1
          | m :: snaps =>
              let w2 := set_mouse snaps w1 in
              if pressed m then Done markerPos (add_event (Wait 1000) w2)
              else
                let slider_value := ((mouse_x m + 300) / 6)%Q in
                let markerPos' :=
                  if Qle_bool 0 slider_value && Qle_bool slider_value 100
                  then slider_value else markerPos in
                confidence_mouse_from rest markerPos' w2
          end
    end.

(** The slider starts at [random.uniform(20, 80)]. *)
Definition get_confidence_mouse : M Q :=
  fun w =>
    match uniform w with
    | [] => Blocked w
    | initial_position :: draws =>
        let w1 := add_event (Show (Slider "How confident are you? (0-100)"))
                    (set_uniform draws w) in
        confidence_mouse_from (kb w1) initial_position w1
    end.

End Functions.

(** ** The session script [s_hdt.py] *)

Module Session.
Import Py Engine Functions.

(** The four staircases of [run_s_hdt]. *)
Definition staircase_set : list Staircase :=
  [StairHandler (PyFloat 400) (PyInt 50) 3 15 2 2 (PyFloat 0) (PyFloat 1000) "400_1";
   StairHandler (PyFloat 100) (PyInt 50) 3 15 2 2 (PyFloat 0) (PyFloat 1000) "100_1";
   StairHandler (PyFloat 400) (PyInt 50) 3 15 2 2 (PyFloat 0) (PyFloat 1000) "400_2";
   StairHandler (PyFloat 100) (PyInt 50) 3 15 2 2 (PyFloat 0) (PyFloat 1000) "100_2"].

(** [show_instructions_list]: the pages are left with [return] (next) or
    [left] (previous, not before the first page); [escape] quits.  The
    page loop of [show_instructions] is folded into the list loop: a poll
    without any of the three keys stays on the page. *)
Fixpoint show_instructions_list_from (polls : list (list string))
  (index n : nat) : M unit :=
  fun w =>
    if (index <? n)%nat then
      match polls with
      | [] => Blocked (set_kb [] w)
      | keys :: rest =>
          let w1 := set_kb rest w in
          if mem "escape" keys then Quit w1
          else if mem "left" keys then
            show_instructions_list_from rest
              (if (0 <? index)%nat then (index - 1)%nat else index) n w1
          else if mem "return" keys then
            show_instructions_list_from rest (S index) n w1
          else show_instructions_list_from rest index n w1
      end
    else Done tt w.

Definition show_instructions_list (n : nat) : M unit :=
  fun w => show_instructions_list_from (kb w) 0 n w.

(** The three-second countdown. *)
Definition countdown : M unit := emit (Wait 3000).

Definition trial_row (staircase_name : string) (trial : nat)
  (current_delay : PyNum) (button : string) (response_code confidence : Z)
  : Row :=
  [CStr staircase_name; CNum (PyInt (Z.of_nat trial + 1)); CNum current_delay;
   CStr button; CNum (PyInt response_code); CNum (PyInt confidence)].

(** [for i, delay in enumerate(train_values): ...], from index [i] on. *)
Fixpoint training_trials (is_integrated_external : bool) (i : nat)
  (train_values : list PyNum) : M unit :=
  match train_values with
  | [] => ret tt
  | delay :: rest =>
      r <- run_set_delay_trial delay is_integrated_external ;;
      let '(button, response_code) := r in
      confidence <- get_numeric_input ;;
      writerow (trial_row "Training" i delay button response_code confidence) ;;
      if (0 <? i)%nat then
        next_action <- ask_run_another ;;
        if String.eqb next_action "stop" then ret tt
        else training_trials is_integrated_external (S i) rest
      else training_trials is_integrated_external (S i) rest
  end.

(** What one pass of the trial loop does once it has decided to run a
    trial: lines 312 to 333. *)
Definition staircase_trial (is_integrated_external : bool) (trial : nat)
  (staircase : Staircase) : M Staircase :=
  let staircase_name := name staircase in
  current_delay <- lift (nextValue staircase) ;;
  r <- run_staircase_trial current_delay is_integrated_external ;;
  let '(button, response_code) := r in
  staircase' <- (if response_code =? -1 then ret staircase
                 else lift (addResponse response_code staircase)) ;;
  confidence <- get_numeric_input ;;
  writerow (trial_row staircase_name trial current_delay button response_code
              confidence) ;;
  ret staircase'.

(** [for trial in range(staircase.nTrials): ...], with [remaining] passes
    left from index [trial] on.  Both [break]s leave this loop only. *)
Fixpoint staircase_trials (is_integrated_external : bool)
  (trial remaining : nat) (staircase : Staircase) : M Staircase :=
  match remaining with
  | O => ret staircase
  | S remaining' =>
      keys <- getKeys ;;
      if mem "escape" keys then
        emit CsvClose ;; emit WinClose ;; ret staircase
      else if finished staircase then ret staircase
      else
        staircase' <- staircase_trial is_integrated_external trial staircase ;;
        staircase_trials is_integrated_external (S trial) remaining' staircase'
  end.

(** [for index, staircase in enumerate(staircase_set): ...], from [index]
    on, [n] being [len(staircase_set)].  The staircases come back as the
    loop leaves them. *)
Fixpoint for_staircases (is_integrated_external : bool) (index n : nat)
  (set : list Staircase) : M (list Staircase) :=
  match set with
  | [] => ret []
  | staircase :: rest =>
      staircase' <- staircase_trials is_integrated_external 0
                      (maxTrials staircase) staircase ;;
      (if (index <? n - 1)%nat then
         wait_for_key_press ;; emit (Wait 1000) ;; countdown
       else ret tt) ;;
      rest' <- for_staircases is_integrated_external (S index) n rest ;;
      ret (staircase' :: rest')
  end.

Definition staircase_phase (is_integrated_external : bool)
  (set : list Staircase) : M (list Staircase) :=
  for_staircases is_integrated_external 0 (List.length set) set.

Definition header : Row :=
  [CStr "Staircase_name"; CStr "Trial"; CStr "Current Delay"; CStr "Button";
   CStr "Response_code"; CStr "Confidence"].

(** [run_s_hdt], from the opening of the log file on; [train_values] is
    the draw [random.choices(range(0, 601, 50), k=20)]. *)
Definition run_s_hdt (is_integrated_external : bool) (participant_id : string)
  (train_values : list PyNum) : M (list Staircase) :=
  writerow [CStr "Participant ID"; CStr participant_id] ;;
  writerow header ;;
  emit CsvClose ;;
  show_instructions_list 4 ;;
  emit (Wait 500) ;;
  countdown ;;
  training_trials is_integrated_external 0 train_values ;;
  wait_for_key_press ;;
  emit (Wait 500) ;;
  countdown ;;
  set' <- staircase_phase is_integrated_external staircase_set ;;
  get_post_task_qs true ;;
  emit (Wait 2000) ;;
  emit WinClose ;;
  ret set'.

End Session.

(** ** Notions used in the statements *)

Module Notions.
Import Py Engine Functions Session.

(** A sequence of [applyResponse] calls on an engine; a call that fails
    leaves the engine as it was. *)
Definition call (s : Staircase) (code : Code) : Staircase :=
  match applyResponse code s with
  | inr s' => s'
  | inl _ => s
  end.

Definition calls (s : Staircase) (codes : list Code) : Staircase :=
  fold_left call codes s.

Definition is_signal (code : Code) : bool :=
  match code with REPEAT => false | _ => true end.

(** A world evolves into another within a set of events when the log
    file is the same and the trace has grown by events of the set only.  A
    routine is confined to the set when, however it ends, the world has
    evolved within it. *)
Definition evolves (allowed : Event -> bool) (w w' : World) : Prop :=
  csv w' = csv w
  /\ exists evs,
       trace w' = (trace w ++ evs)%list /\ forallb allowed evs = true.

Definition confined {A} (allowed : Event -> bool) (c : M A) : Prop :=
  forall w, evolves allowed w (world_of (c w)).

(** The events of a trial after its heart image and of a rating after its
    question; [no_event] is the empty set. *)
Definition no_event (e : Event) : bool := false.
Definition trial_event (e : Event) : bool :=
  match e with
  | Show BeepsQuestion | Wait _ | SerialWrite _ | SerialRead _ => true
  | _ => false
  end.
Definition rating_event (e : Event) : bool :=
  match e with
  | Show InvalidInput | Prompt _ => true
  | _ => false
  end.
Definition pause_event (e : Event) : bool :=
  match e with
  | Wait _ => true
  | _ => false
  end.

(** The screens that open a trial, a rating and a continue-or-stop
    question, in the order in which a run shows them; the other events
    are [inner]. *)
Definition opening (e : Event) : bool :=
  match e with
  | Show HeartImage | Show ConfidenceQuestion | Show AnotherQuestion => true
  | _ => false
  end.
Definition inner (e : Event) : bool := negb (opening e).
Definition openings (evs : list Event) : list Event := filter opening evs.

(** A routine opens with a screen when every run of it that returns has
    left the log file alone and has shown that screen first and inner
    events after it. *)
Definition opens_with {A} (s : Screen) (c : M A) : Prop :=
  forall w a w',
    c w = Done a w' ->
    csv w' = csv w
    /\ exists evs,
         trace w' = (trace w ++ Show s :: evs)%list
         /\ forallb inner evs = true.

(** The pairs a trial routine can return. *)
Definition answers : list (string * Z) :=
  [("before", 0); ("same time", -1); ("after", 1)].

(** [rows] are the rows of training trials on the delays [delays], in
    order and numbered from [i]. *)
Fixpoint training_rows (i : nat) (delays : list PyNum) (rows : list Row)
  : Prop :=
  match delays, rows with
  | [], [] => True
  | delay :: delays', row :: rows' =>
      (exists button response_code confidence,
          In (button, response_code) answers
          /\ 0 <= confidence <= 100
          /\ row = trial_row "Training" i delay button response_code confidence)
      /\ training_rows (S i) delays' rows'
  | _, _ => False
  end.

(** The opening screens of [k] training trials numbered from [i]: for
    each trial the heart image and the confidence question, and for each
    trial but the one numbered 0 the continue-or-stop question. *)
Fixpoint training_openings (i k : nat) : list Event :=
  match k with
  | O => []
  | S k' =>
      ([Show HeartImage; Show ConfidenceQuestion]
       ++ (if (0 <? i)%nat then [Show AnotherQuestion] else [])
       ++ training_openings (S i) k')%list
  end.


(** The cells of a row, by the column names of the header. *)
Fixpoint index_of (col : string) (cols : list Cell) : option nat :=
  match cols with
  | [] => None
  | CStr c :: rest =>
      if String.eqb col c then Some O else option_map S (index_of col rest)
  | _ :: rest => option_map S (index_of col rest)
  end.
Definition field (col : string) (row : Row) : option Cell :=
  match index_of col header with
  | Some i => nth_error row i
  | None => None
  end.

Definition NA : Cell := CStr "NA".

(** The row of a questionnaire answer, and the answers that are numbers. *)
Definition post_task_row (label : string) (response : Cell) : Row :=
  [CStr "Post_task_question"; CStr label; response; NA; NA; NA].
Definition is_number (c : Cell) : bool :=
  match c with
  | CStr _ => false
  | _ => true
  end.

(** A row of a trial answered "same time". *)
Definition is_repeat_row (row : Row) : bool :=
  match field "Response_code" row with
  | Some (CNum (PyInt c)) => c =? -1
  | _ => false
  end.

(** The counted trials among the rows of a staircase. *)
Definition counted (rows : list Row) : nat :=
  List.length (filter (fun r => negb (is_repeat_row r)) rows).

(** [rows] are rows of trials of the staircase [staircase_name], in order
    and numbered from [trial]. *)
Fixpoint staircase_rows (staircase_name : string) (trial : nat)
  (rows : list Row) : Prop :=
  match rows with
  | [] => True
  | row :: rows' =>
      (exists delay button response_code confidence,
          In (button, response_code) answers
          /\ 0 <= confidence <= 100
          /\ row = trial_row staircase_name trial delay button response_code
                     confidence)
      /\ staircase_rows staircase_name (S trial) rows'
  end.

(** On an engine that has counted a response the flag is the cap test;
    before that it is not set. *)
Definition flag_agrees (s : Staircase) : Prop :=
  finished s = (0 <? trialsRun s)%nat && caps_reached s.

(** The first claim as worded, on the rows that the trial loop of one
    staircase logs: every trial answered "same time" is followed by
    another trial of the staircase with the same delay and the same
    value of the trial counter. *)
Definition readministered (rows : list Row) : Prop :=
  forall i row,
    nth_error rows i = Some row ->
    is_repeat_row row = true ->
    exists next,
      nth_error rows (S i) = Some next
      /\ field "Current Delay" next = field "Current Delay" row
      /\ field "Trial" next = field "Trial" row.

(** The events of the exchange with the device, and what the wait for
    the device does on the reads [pre] that are not the acknowledgment:
    the read, then (after the escape check) the pause of 0.1 s. *)
Definition device_event (e : Event) : bool :=
  match e with
  | Wait _ | SerialRead _ => true
  | _ => false
  end.
Definition is_write (e : Event) : bool :=
  match e with
  | SerialWrite _ => true
  | _ => false
  end.
Definition polling (pre : list string) : list Event :=
  flat_map (fun r => [SerialRead r; Wait 100]) pre.
Definition is_ended (received_data : string) : bool :=
  String.eqb (strip received_data) "ENDED;".
Definition no_escape (keys : list string) : bool := negb (mem "escape" keys).

(** What the outcome [o] of a trial with the device, run on
    [current_delay] from the world [w], shows of the serial exchange: the
    two commands are the only bytes written; and if the question is shown
    at all, the trial has first read [pre], each read followed by a
    keyboard poll without escape and a pause of 0.1 s, and then a text
    [ended] that strips to the acknowledgment. *)
Definition follows_protocol (current_delay : PyNum) (w : World)
  (o : Outcome (string * Z)) : Prop :=
  let delay_command := ("DELAY" ++ py_str current_delay ++ ";")%string in
  exists evs,
    trace (world_of o) = (trace w ++ evs)%list
    /\ filter is_write evs = [SerialWrite delay_command; SerialWrite "START;"]
    /\ (In (Show BeepsQuestion) evs ->
        exists pre ended later polls kb_later tail,
          evs = ([Show HeartImage; Wait 500; SerialWrite delay_command;
                  SerialWrite "START;"]
                 ++ polling pre
                 ++ [SerialRead ended; Wait 1000; Show BeepsQuestion]
                 ++ tail)%list
          /\ serial w = (pre ++ ended :: later)%list
          /\ forallb (fun r => negb (is_ended r)) pre = true
          /\ is_ended ended = true
          /\ kb w = (polls ++ kb_later)%list
          /\ List.length polls = List.length pre
          /\ forallb no_escape polls = true
          /\ forallb pause_event tail = true).

(** Whether a text holds a given character. *)
Fixpoint has_char (c : ascii) (s : string) : bool :=
  match s with
  | EmptyString => false
  | String d s' => Ascii.eqb c d || has_char c s'
  end.

End Notions.

(** ** Further notions *)

Module Coverage.
Import Py Engine Functions Session Notions.

(** The page that [show_instructions_list] turns to on a result of
    [show_instructions]. *)
Definition turn_page (result : string) (index : nat) : nat :=
  if String.eqb result "next" then S index
  else if String.eqb result "previous" && (0 <? index)%nat then (index - 1)%nat
  else index.

(** The loop of [show_instructions_list] from a page on, in the world at
    hand. *)
Definition show_instructions_list_at (index n : nat) : M unit :=
  fun w => show_instructions_list_from (kb w) index n w.

(** A poll that turns to the next page: it holds [return] and neither
    [escape] nor [left]. *)
Definition is_next (keys : list string) : bool :=
  negb (mem "escape" keys) && negb (mem "left" keys) && mem "return" keys.
Definition count_next (polls : list (list string)) : nat :=
  List.length (filter is_next polls).

(** A poll that [wait_for_key_press] waits through: neither [return] nor
    [escape]. *)
Definition idle (keys : list string) : bool :=
  negb (mem "return" keys) && negb (mem "escape" keys).

(** A look at the mouse that gives no response among [n] buttons: no
    press, or a press with the pointer over none of them. *)
Definition no_choice (n : nat) (m : MouseSnap) : bool :=
  negb (pressed m) || forallb (fun j => negb (contains m j)) (seq 0 n).

(** The events that a trial without the device can do. *)
Definition screen_or_pause (e : Event) : bool :=
  match e with
  | Show _ | Wait _ => true
  | _ => false
  end.

(** A routine keeps its hands off the serial port when, however it
    ends, the reads that the port holds in store are the same. *)
Definition keeps_serial {A} (c : M A) : Prop :=
  forall w, serial (world_of (c w)) = serial w.

(** A text that a read of six bytes can give and that is not the
    acknowledgment, letter for letter. *)
Definition short_of_ended (received_data : string) : Prop :=
  (String.length received_data <= 6)%nat /\ received_data <> "ENDED;".

(** A content of the confidence box within its limits: at most three
    characters, all of them digits. *)
Definition box_text (input_text : string) : bool :=
  (String.length input_text <=? 3)%nat && all_chars is_digit input_text.

(** The events of a rating whose box is within its limits each time it
    is drawn. *)
Definition box_event (e : Event) : bool :=
  match e with
  | Show ConfidenceQuestion | Show InvalidInput => true
  | Prompt input_text => box_text input_text
  | _ => false
  end.

(** The keys of the main row. *)
Definition digit_keys : list string :=
  ["0"; "1"; "2"; "3"; "4"; "5"; "6"; "7"; "8"; "9"].

(** The polls of a text typed key by key, one key to a poll. *)
Fixpoint typed (s : string) : list (list string) :=
  match s with
  | EmptyString => []
  | String c s' => [String c EmptyString] :: typed s'
  end.

(** The key of the main row that a key stands for: itself, but for the
    keys of the numeric keypad. *)
Definition main_key (key : string) : string :=
  match lookup key keypad_mapping with
  | Some d => d
  | None => key
  end.

(** An outcome with its world changed by [f]. *)
Definition outcome_map {A} (f : World -> World) (o : Outcome A) : Outcome A :=
  match o with
  | Done a w => Done a (f w)
  | Quit w => Quit (f w)
  | Blocked w => Blocked (f w)
  | Raised e w => Raised e (f w)
  end.

(** The world in which every keypad key to come is pressed on the main
    row instead. *)
Definition on_main_row (w : World) : World :=
  set_kb (map (map main_key) (kb w)) w.

(** A draw of [random.uniform(20, 80)], and a position on a slider from
    0 to 100. *)
Definition drawn (q : Q) : Prop := (20 <= q /\ q <= 80)%Q.
Definition on_scale (q : Q) : Prop := (0 <= q /\ q <= 100)%Q.

(** An answer to a questionnaire item: a position on the scale when the
    mouse is used, else 0 (left) or the last index of the two labels of
    the scale (right). *)
Definition scale_answer (use_mouse : bool) (response : Cell) : Prop :=
  if use_mouse then exists q, response = CRating q /\ on_scale q
  else response = CNum (PyInt 0) \/ response = CNum (PyInt 1).

(** [rows] are the rows of the staircases of [set], one staircase after
    the other in the order of the list: for each a block of rows of that
    staircase numbered from 1, no longer than its [nTrials]. *)
Fixpoint phase_rows (set : list Staircase) (rows : list Row) : Prop :=
  match set with
  | [] => rows = []
  | staircase :: set' =>
      exists block later,
        rows = (block ++ later)%list
        /\ staircase_rows (name staircase) 0 block
        /\ (List.length block <= maxTrials staircase)%nat
        /\ phase_rows set' later
  end.

(** The trials that the staircases of a list allow between them. *)
Definition trial_budget (set : list Staircase) : nat :=
  fold_right (fun staircase n => (maxTrials staircase + n)%nat) 0%nat set.

(** A text of ASCII characters.  The texts of the embedding are made of
    one-byte characters, and [len], [isalpha], [lower] and [ord] are
    Python's on ASCII texts; on other characters Python's work on code
    points, and what is said of file names is said of ASCII ones. *)
Definition is_ascii (c : ascii) : bool := (nat_of_ascii c <? 128)%nat.
Definition ascii_text (s : string) : bool := all_chars is_ascii s.

(** The two commands that a trial with the device writes to the port for
    the delay logged in [row]; a row without a number under
    [Current Delay] (the header, the participant's row) stands for no
    command. *)
Definition delay_commands (row : Row) : list Event :=
  match field "Current Delay" row with
  | Some (CNum current_delay) =>
      [SerialWrite ("DELAY" ++ py_str current_delay ++ ";")%string;
       SerialWrite "START;"]
  | _ => []
  end.

(** From [w] to [w'] the log file has grown by rows, and the bytes
    written to the port are, in order, the commands of those rows. *)
Definition sent_as_logged (w w' : World) : Prop :=
  exists rows evs,
    csv w' = (csv w ++ rows)%list
    /\ trace w' = (trace w ++ evs)%list
    /\ filter is_write evs = flat_map delay_commands rows.

(** The events that write nothing to the port. *)
Definition quiet (e : Event) : bool := negb (is_write e).

End Coverage.

(** * Properties *)

Import Py Engine Functions Session Notions Coverage.
Local Open Scope list_scope.

(** ** The engine *)

Section EngineFacts.

Lemma caps_reached_set_finished s :
  caps_reached (set_finished s) = caps_reached s.
Proof. reflexivity. Qed.

Lemma call_finished s code : finished s = true -> call s code = s.
Proof. intros H. unfold call, applyResponse. now rewrite H. Qed.

Lemma call_repeat s : call s REPEAT = s.
Proof. unfold call, applyResponse. now destruct (finished s). Qed.

(** A counted response on a running engine sets the flag to the cap test. *)
Lemma call_signal_flag s code :
  finished s = false -> is_signal code = true ->
  finished (call s code) = caps_reached (call s code).
Proof.
  intros Hrun Hsig. unfold call, applyResponse. rewrite Hrun.
  destruct code; try discriminate; cbn beta iota.
  - set (s2 := if (nUp _ <=? consecutiveUp _)%nat then _ else _).
    assert (Hf : finished s2 = false).
    { subst s2. destruct (_ <=? _)%nat; exact Hrun. }
    destruct (caps_reached s2) eqn:Hc;
      [now rewrite caps_reached_set_finished, Hc | now rewrite Hf, Hc].
  - set (s2 := if (nDown _ <=? consecutiveDown _)%nat then _ else _).
    assert (Hf : finished s2 = false).
    { subst s2. destruct (_ <=? _)%nat; exact Hrun. }
    destruct (caps_reached s2) eqn:Hc;
      [now rewrite caps_reached_set_finished, Hc | now rewrite Hf, Hc].
Qed.

Lemma call_flag_step s code b :
  finished s = b && caps_reached s ->
  finished (call s code) = (b || is_signal code) && caps_reached (call s code).
Proof.
  intros H. destruct (finished s) eqn:Hf.
  - rewrite (call_finished s code Hf), Hf.
    symmetry in H. apply andb_true_iff in H as [-> ->]. reflexivity.
  - destruct code.
    + rewrite call_repeat, Hf, orb_false_r. exact H.
    + rewrite orb_true_r. now apply call_signal_flag.
    + rewrite orb_true_r. now apply call_signal_flag.
Qed.

Lemma calls_flag codes : forall s b,
  finished s = b && caps_reached s ->
  finished (calls s codes)
  = (b || existsb is_signal codes) && caps_reached (calls s codes).
Proof.
  induction codes as [|code codes IH]; intros s b H; cbn.
  - now rewrite orb_false_r.
  - unfold calls in IH. rewrite (IH (call s code) (b || is_signal code)).
    + now rewrite orb_assoc.
    + now apply call_flag_step.
Qed.

Lemma calls_stay_finished more : forall s,
  finished s = true -> calls s more = s.
Proof.
  induction more as [|c more IH]; intros s H; cbn; [reflexivity|].
  rewrite (call_finished s c H). now apply IH.
Qed.

Lemma calls_app s xs ys : calls s (xs ++ ys) = calls (calls s xs) ys.
Proof. apply fold_left_app. Qed.

End EngineFacts.

(** C3.  Whatever the configuration and the sequence of [applyResponse]
    calls, the [finished] flag of the engine is set exactly when a response
    has been counted and a cap is reached, that is [trialsRun >= maxTrials]
    or [reversalCount >= targetReversals], either one alone; and a flag
    that is set stays set under every further call ([nextValue] does not
    touch the engine at all). *)
Theorem C3_finished_iff_cap_reached
  (startVal stepSizes : PyNum) (nReversals nTrials nUp nDown : nat)
  (minVal maxVal : PyNum) (name : string) (codes more : list Code) :
  let s := calls (StairHandler startVal stepSizes nReversals nTrials nUp nDown
                    minVal maxVal name) codes in
  finished s
  = existsb is_signal codes
    && ((maxTrials s <=? trialsRun s)%nat
        || (targetReversals s <=? reversalCount s)%nat)
  /\ (finished s = true -> finished (calls s more) = true).
Proof.
  cbv zeta. split.
  - apply (calls_flag codes _ false). reflexivity.
  - intros H. now rewrite calls_stay_finished.
Qed.

Lemma C3_witness :
  let s := calls (StairHandler (PyFloat 400) (PyInt 50) 3 2 2 2 (PyFloat 0)
                    (PyFloat 1000) "400_1")
             [INCREASE_SIGNAL; REPEAT; DECREASE_SIGNAL] in
  finished s = true
  /\ finished (calls s [REPEAT; INCREASE_SIGNAL]) = true.
Proof.
  cbv zeta. split; [reflexivity|].
  apply (C3_finished_iff_cap_reached (PyFloat 400) (PyInt 50) 3 2 2 2
           (PyFloat 0) (PyFloat 1000) "400_1"
           [INCREASE_SIGNAL; REPEAT; DECREASE_SIGNAL] [REPEAT; INCREASE_SIGNAL]).
  reflexivity.
Defined.

(** ** What the routines leave alone *)

Section Frames.

Lemma evolves_refl a w : evolves a w w.
Proof. split; [reflexivity|]. exists []. now rewrite app_nil_r. Qed.

Lemma evolves_trans a w1 w2 w3 :
  evolves a w1 w2 -> evolves a w2 w3 -> evolves a w1 w3.
Proof.
  intros [Hc1 (e1 & Ht1 & Ha1)] [Hc2 (e2 & Ht2 & Ha2)]. split.
  - congruence.
  - exists (e1 ++ e2). split.
    + now rewrite Ht2, Ht1, app_assoc.
    + now rewrite forallb_app, Ha1, Ha2.
Qed.

Lemma evolves_weaken (a b : Event -> bool) w w' :
  (forall e, a e = true -> b e = true) -> evolves a w w' -> evolves b w w'.
Proof.
  intros Hab [Hc (evs & Ht & Ha)]. split; [exact Hc|].
  exists evs. split; [exact Ht|].
  rewrite forallb_forall in *. auto.
Qed.

Lemma evolves_event a e w : a e = true -> evolves a w (add_event e w).
Proof.
  intros H. split; [reflexivity|]. exists [e]. split; [reflexivity|].
  cbn. now rewrite H.
Qed.

Lemma evolves_set_kb a k w : evolves a w (set_kb k w).
Proof. split; [reflexivity|]. exists []. cbn. now rewrite app_nil_r. Qed.

Lemma evolves_set_mouse a m w : evolves a w (set_mouse m w).
Proof. split; [reflexivity|]. exists []. cbn. now rewrite app_nil_r. Qed.

Lemma evolves_set_serial a r w : evolves a w (set_serial r w).
Proof. split; [reflexivity|]. exists []. cbn. now rewrite app_nil_r. Qed.

Lemma evolves_set_uniform a u w : evolves a w (set_uniform u w).
Proof. split; [reflexivity|]. exists []. cbn. now rewrite app_nil_r. Qed.

Lemma confined_weaken {A} (a b : Event -> bool) (c : M A) :
  (forall e, a e = true -> b e = true) -> confined a c -> confined b c.
Proof. intros Hab H w. eapply evolves_weaken; eauto. Qed.

Lemma confined_ret {A} a (x : A) : confined a (ret x).
Proof. intros w. apply evolves_refl. Qed.

Lemma confined_quit {A} a : confined a (@core_quit A).
Proof. intros w. apply evolves_refl. Qed.

Lemma confined_raise {A} a e : confined a (@raise A e).
Proof. intros w. apply evolves_refl. Qed.

Lemma confined_lift {A} a (r : Exn + A) : confined a (lift r).
Proof. destruct r; [apply confined_raise | apply confined_ret]. Qed.

Lemma confined_emit a e : a e = true -> confined a (emit e).
Proof. intros H w. now apply evolves_event. Qed.

Lemma confined_getKeys a : confined a getKeys.
Proof.
  intros w. unfold getKeys. destruct (kb w); cbn.
  - apply evolves_refl.
  - apply evolves_set_kb.
Qed.

Lemma confined_bind {A B} a (c : M A) (k : A -> M B) :
  confined a c -> (forall x, confined a (k x)) -> confined a (bind c k).
Proof.
  intros Hc Hk w. unfold bind. specialize (Hc w).
  destruct (c w) as [x w'| | |]; cbn in *; try exact Hc.
  eapply evolves_trans; [exact Hc | apply Hk].
Qed.

End Frames.

Create HintDb frames.
#[local] Hint Resolve evolves_refl evolves_set_kb evolves_set_mouse
  evolves_set_serial evolves_set_uniform confined_ret confined_quit
  confined_raise confined_lift confined_getKeys : frames.

(** ** How a sequence of routine calls is taken apart *)

Section Inversion.

Lemma bind_done {A B} (c : M A) (k : A -> M B) w b w' :
  bind c k w = Done b w' ->
  exists a w1, c w = Done a w1 /\ k a w1 = Done b w'.
Proof.
  unfold bind. destruct (c w) as [a w1| | |]; try discriminate.
  intros H. now exists a, w1.
Qed.

Lemma bind_raised {A B} (c : M A) (k : A -> M B) w e w' :
  bind c k w = Raised e w' ->
  c w = Raised e w' \/ exists a w1, c w = Done a w1 /\ k a w1 = Raised e w'.
Proof.
  unfold bind. destruct (c w) as [a w1| | |]; try discriminate.
  - intros H. right. now exists a, w1.
  - intros [= -> ->]. now left.
Qed.

Lemma emit_done e w u w' : emit e w = Done u w' -> w' = add_event e w.
Proof. unfold emit. congruence. Qed.

Lemma writerow_done r w u w' : writerow r w = Done u w' -> w' = add_row r w.
Proof. unfold writerow. congruence. Qed.

End Inversion.

Section RoutineFrames.

Ltac step_with H :=
  eapply evolves_trans; [exact H|]; clear H.

Lemma wait_for_key_press_from_confined polls :
  confined no_event (wait_for_key_press_from polls).
Proof.
  induction polls as [|keys rest IH]; intros w; cbn.
  - auto with frames.
  - destruct (mem "return" keys); [cbn; auto with frames|].
    destruct (mem "escape" keys); [cbn; auto with frames|].
    eapply evolves_trans; [apply evolves_set_kb | apply IH].
Qed.

Lemma wait_for_key_press_confined : confined no_event wait_for_key_press.
Proof. intros w. apply wait_for_key_press_from_confined. Qed.

Lemma handle_keys_confined keys :
  forall input_text, confined rating_event (handle_keys keys input_text).
Proof.
  induction keys as [|key keys IH]; intros input_text; cbn [handle_keys].
  - auto with frames.
  - destruct (String.eqb key "return").
    { destruct (valid_input input_text).
      - destruct (int input_text); auto with frames.
      - apply confined_bind; [now apply confined_emit | intros _; apply IH]. }
    destruct (String.eqb key "backspace"); [apply IH|].
    destruct (lookup key keypad_mapping); [apply IH|].
    destruct (String.eqb key "escape"); [auto with frames | apply IH].
Qed.

Lemma get_numeric_input_from_confined polls :
  forall input_text,
    confined rating_event (get_numeric_input_from polls input_text).
Proof.
  induction polls as [|poll rest IH]; intros input_text w;
    cbn [get_numeric_input_from].
  - cbn. auto with frames.
  - destruct (filter _ poll) as [|key keys] eqn:Hf.
    + eapply evolves_trans; [apply evolves_set_kb | apply IH].
    + pose proof (handle_keys_confined (key :: keys) input_text
                    (set_kb rest w)) as H.
      eapply evolves_trans; [apply evolves_set_kb|].
      destruct (handle_keys (key :: keys) input_text (set_kb rest w))
        as [[t|n] w2|w2|w2|e w2]; cbn in H |- *; try exact H.
      step_with H.
      eapply evolves_trans; [|apply IH].
      apply evolves_event; reflexivity.
Qed.

Lemma opens_with_emit {A} s a (k : M A) :
  (forall e, a e = true -> inner e = true) ->
  confined a k -> opens_with s (bind (emit (Show s)) (fun _ => k)).
Proof.
  intros Ha Hk w x w' H. apply bind_done in H as (u & w1 & H1 & H).
  apply emit_done in H1. subst w1.
  pose proof (Hk (add_event (Show s) w)) as Hev. rewrite H in Hev.
  apply (evolves_weaken a inner _ _ Ha) in Hev.
  destruct Hev as [Hc (evs & Ht & Hin)]. split; [exact Hc|].
  exists evs. split; [|exact Hin].
  cbn in Ht. now rewrite Ht, <- app_assoc.
Qed.

Lemma get_numeric_input_opens : opens_with ConfidenceQuestion get_numeric_input.
Proof.
  intros w n w' H. unfold get_numeric_input in H.
  pose proof (get_numeric_input_from_confined (kb w) ""
                (add_event (Prompt "") (add_event (Show ConfidenceQuestion) w)))
    as Hev.
  cbn [kb add_event] in H. rewrite H in Hev.
  destruct Hev as [Hc (evs & Ht & Hin)]. split; [exact Hc|].
  exists (Prompt "" :: evs). split.
  - cbn in Ht |- *. now rewrite Ht, <- !app_assoc.
  - cbn. rewrite forallb_forall in *. intros e He.
    specialize (Hin e He). now destruct e as [[]| | | | | |].
Qed.

Lemma await_ended_from_confined reads :
  confined device_event (await_ended_from reads).
Proof.
  induction reads as [|received_data rest IH]; intros w;
    cbn [await_ended_from].
  - cbn. auto with frames.
  - set (w1 := add_event _ _).
    assert (H1 : evolves device_event w w1).
    { eapply evolves_trans; [apply evolves_set_serial|].
      apply evolves_event; reflexivity. }
    step_with H1.
    destruct (String.eqb _ "ENDED;"); [cbn; auto with frames|].
    pose proof (confined_getKeys device_event w1) as H.
    destruct (getKeys w1) as [keys w2|w2|w2|e w2]; cbn in H |- *;
      try exact H.
    destruct (mem "escape" keys); [exact H|].
    step_with H.
    eapply evolves_trans; [|apply IH].
    apply evolves_event; reflexivity.
Qed.

Lemma device_exchange_confined d : confined trial_event (device_exchange d).
Proof.
  unfold device_exchange.
  repeat (apply confined_bind; [|intros ?]);
    try (now apply confined_emit).
  apply (confined_weaken device_event); [now intros []|].
  intros w. apply await_ended_from_confined.
Qed.

Lemma record_response_from_confined snaps n :
  confined no_event (record_response_from snaps n).
Proof.
  induction snaps as [|m rest IH]; intros w; cbn [record_response_from].
  - cbn. auto with frames.
  - eapply evolves_trans; [apply evolves_set_mouse|].
    set (w1 := set_mouse rest w).
    pose proof (confined_getKeys no_event w1) as H.
    destruct (getKeys w1) as [keys w2|w2|w2|e w2]; cbn in H |- *;
      try exact H.
    destruct (mem "escape" keys); [exact H|].
    destruct (if pressed m then _ else _); [exact H|].
    step_with H. apply IH.
Qed.

Lemma record_response_confined a n : confined a (record_response n).
Proof.
  apply (confined_weaken no_event); [discriminate|].
  intros w. apply record_response_from_confined.
Qed.

Lemma code_response_confined a r : confined a (code_response r).
Proof.
  unfold code_response.
  destruct (nth_error _ r); [|auto with frames].
  destruct (nth_error _ r); auto with frames.
Qed.

Lemma trial_body_opens d hw : opens_with HeartImage (trial_body d hw).
Proof.
  unfold trial_body. apply (opens_with_emit HeartImage trial_event).
  { now intros [[]| | | | | |]. }
  repeat (apply confined_bind; [|intros ?]);
    try (now apply confined_emit);
    auto using record_response_confined, code_response_confined.
  destruct hw; [apply device_exchange_confined | now apply confined_emit].
Qed.

Lemma ask_run_another_opens : opens_with AnotherQuestion ask_run_another.
Proof.
  unfold ask_run_another. apply (opens_with_emit AnotherQuestion pause_event).
  { now intros [[]| | | | | |]. }
  repeat (apply confined_bind; [|intros ?]);
    try (now apply confined_emit);
    auto using record_response_confined.
  destruct (nth_error _ _); auto with frames.
Qed.

End RoutineFrames.

(** ** The trial routines return a button and its code *)

Section TrialResult.

Lemma first_clicked_bound l : forall i j,
  first_clicked i l = Some j -> (i <= j < i + List.length l)%nat.
Proof.
  induction l as [|b l IH]; intros i j; cbn; [discriminate|].
  destruct b.
  - intros [= <-]. lia.
  - intros H. apply IH in H. lia.
Qed.

Lemma selected_button_index_bound m n j :
  selected_button_index m n = Some j -> (j < n)%nat.
Proof.
  unfold selected_button_index. intros H.
  apply first_clicked_bound in H. rewrite length_map, length_seq in H. lia.
Qed.

Lemma record_response_from_bound snaps n : forall w r w',
  record_response_from snaps n w = Done r w' -> (r < n)%nat.
Proof.
  induction snaps as [|m rest IH]; intros w r w'; cbn [record_response_from];
    [discriminate|].
  destruct (getKeys _) as [keys w2| | |]; try discriminate.
  destruct (mem "escape" keys); [discriminate|].
  destruct (pressed m).
  - destruct (selected_button_index m n) as [j|] eqn:Hsel.
    + intros [= <- _]. now apply selected_button_index_bound in Hsel.
    + apply IH.
  - apply IH.
Qed.

Lemma record_response_from_never_raises snaps n : forall w e w',
  record_response_from snaps n w <> Raised e w'.
Proof.
  induction snaps as [|m rest IH]; intros w e w'; cbn [record_response_from];
    [discriminate|].
  unfold getKeys. destruct (kb _) as [|keys polls]; [discriminate|].
  destruct (mem "escape" keys); [discriminate|].
  destruct (if pressed m then _ else _); [discriminate | apply IH].
Qed.

Lemma code_response_table r w p w' :
  (r < 3)%nat -> code_response r w = Done p w' ->
  In p [("before", 0); ("same time", -1); ("after", 1)].
Proof.
  intros Hr. destruct r as [|[|[|r]]]; try lia; cbn; intros [= <- _]; auto.
Qed.

Lemma trial_body_table d hw w p w' :
  trial_body d hw w = Done p w' ->
  In p [("before", 0); ("same time", -1); ("after", 1)].
Proof.
  unfold trial_body. intros H.
  do 4 (apply bind_done in H as (? & ? & _ & H)).
  apply bind_done in H as (r & w4 & Hr & H).
  apply bind_done in H as (? & ? & _ & H).
  apply record_response_from_bound in Hr.
  eapply code_response_table; eauto.
Qed.

(** The index into the buttons and the codes is always in range: no
    [IndexError] leaves a trial.  Without the device nothing else can be
    raised. *)
Lemma trial_body_never_raises d w e w' :
  trial_body d false w <> Raised e w'.
Proof.
  unfold trial_body. intros H.
  apply bind_raised in H as [H|(? & ? & _ & H)]; [discriminate|].
  apply bind_raised in H as [H|(? & ? & _ & H)]; [discriminate|].
  apply bind_raised in H as [H|(? & ? & _ & H)]; [discriminate|].
  apply bind_raised in H as [H|(? & ? & _ & H)]; [discriminate|].
  apply bind_raised in H as [H|(r & ? & Hr & H)].
  { now apply record_response_from_never_raises in H. }
  apply record_response_from_bound in Hr.
  apply bind_raised in H as [H|(? & ? & _ & H)]; [discriminate|].
  destruct r as [|[|[|r]]]; try discriminate. cbn in Hr. lia.
Qed.

End TrialResult.

(** C10.  What either trial routine returns is one of the three pairs
    [("before", 0)], [("same time", -1)], [("after", 1)], the code being
    the entry of [[0, -1, 1]] at the position of the label among the
    buttons; the test [response_code == -1] of the session script
    therefore holds exactly for the label "same time". *)
Theorem C10_label_and_code (current_delay : PyNum)
  (is_integrated_external : bool) (w : World) (button : string)
  (response_code : Z) (w' : World) :
  run_staircase_trial current_delay is_integrated_external w
    = Done (button, response_code) w'
  \/ run_set_delay_trial current_delay is_integrated_external w
    = Done (button, response_code) w' ->
  (exists response,
      nth_error buttons response = Some button
      /\ nth_error [0; -1; 1] response = Some response_code)
  /\ ((response_code =? -1) = true <-> button = "same time").
Proof.
  intros H.
  assert (Hin : In (button, response_code)
                  [("before", 0); ("same time", -1); ("after", 1)]).
  { destruct H as [H|H]; exact (trial_body_table _ _ _ _ _ H). }
  cbn in Hin.
  destruct Hin as [[= <- <-]|[[= <- <-]|[[= <- <-]|[]]]].
  - split; [now exists 0%nat|]. split; discriminate.
  - split; [now exists 1%nat|]. split; reflexivity.
  - split; [now exists 2%nat|]. split; discriminate.
Qed.

Lemma C10_witness :
  let w := mkWorld [[]] [mkMouse (Nat.eqb 1) true 0] [] [] [] [] in
  (exists response,
      nth_error buttons response = Some "same time"
      /\ nth_error [0; -1; 1] response = Some (-1))
  /\ ((-1 =? -1) = true <-> "same time" = "same time").
Proof.
  cbv zeta.
  apply (C10_label_and_code (PyFloat 400) false
           (mkWorld [[]] [mkMouse (Nat.eqb 1) true 0] [] [] [] [])
           "same time" (-1)
           (mkWorld [] [] [] [] []
              [Show HeartImage; Wait 500; Wait 2000; Show BeepsQuestion;
               Wait 2000])).
  left. reflexivity.
Defined.

(** ** The confidence box *)

Section ConfidenceInput.

Lemma valid_input_range input_text :
  valid_input input_text = true ->
  exists n, int input_text = Some n /\ 0 <= n <= 100.
Proof.
  unfold valid_input. intros H.
  apply andb_true_iff in H as [_ H].
  destruct (int input_text) as [n|]; [|discriminate].
  exists n. split; [reflexivity | lia].
Qed.

Lemma int_acc_nonneg s : forall acc,
  all_chars is_digit s = true -> 0 <= acc -> 0 <= int_acc acc s.
Proof.
  induction s as [|c s IH]; intros acc Hd Hacc; cbn [int_acc all_chars] in *;
    [exact Hacc|].
  apply andb_true_iff in Hd as [Hc Hs]. apply IH; [exact Hs|].
  unfold is_digit in Hc. apply andb_true_iff in Hc as [Hlo _].
  apply Nat.leb_le in Hlo. lia.
Qed.

(** The entries the box turns down: the empty one, one with a character
    that is no digit, one above 100. *)
Lemma valid_input_false input_text :
  valid_input input_text = false
  <-> input_text = "" \/ all_chars is_digit input_text = false
      \/ exists n, int input_text = Some n /\ 100 < n.
Proof.
  unfold valid_input, int, isdigit. split.
  - intros H. destruct (String.eqb_spec input_text ""); [now left|].
    destruct (all_chars is_digit input_text) eqn:Hd; [|now right; left].
    right; right. cbn in H |- *.
    pose proof (int_acc_nonneg input_text 0 Hd (Z.le_refl 0)) as Hn.
    exists (int_acc 0 input_text). split; [reflexivity | lia].
  - intros [->|[H|(n & H & Hn)]].
    + reflexivity.
    + rewrite H, andb_false_r. reflexivity.
    + destruct (negb _ && _); [|reflexivity].
      injection H as ->. cbn. lia.
Qed.

Lemma handle_keys_range keys : forall input_text w n w',
  handle_keys keys input_text w = Done (inr n) w' -> 0 <= n <= 100.
Proof.
  induction keys as [|key keys IH]; intros input_text w n w';
    cbn [handle_keys]; [discriminate|].
  destruct (String.eqb key "return").
  { destruct (valid_input input_text) eqn:Hv.
    - apply valid_input_range in Hv as (m & -> & Hm). now intros [= <- _].
    - intros H. apply bind_done in H as (? & w1 & _ & H). eapply IH, H. }
  destruct (String.eqb key "backspace"); [apply IH|].
  destruct (lookup key keypad_mapping); [apply IH|].
  destruct (String.eqb key "escape"); [discriminate | apply IH].
Qed.

Lemma handle_keys_never_raises keys : forall input_text w e w',
  handle_keys keys input_text w <> Raised e w'.
Proof.
  induction keys as [|key keys IH]; intros input_text w e w';
    cbn [handle_keys]; [discriminate|].
  destruct (String.eqb key "return").
  { destruct (valid_input input_text) eqn:Hv; [|apply IH].
    apply valid_input_range in Hv as (m & -> & _). discriminate. }
  destruct (String.eqb key "backspace"); [apply IH|].
  destruct (lookup key keypad_mapping); [apply IH|].
  destruct (String.eqb key "escape"); [discriminate | apply IH].
Qed.

Lemma get_numeric_input_from_range polls : forall input_text w n w',
  get_numeric_input_from polls input_text w = Done n w' -> 0 <= n <= 100.
Proof.
  induction polls as [|poll rest IH]; intros input_text w n w';
    cbn [get_numeric_input_from]; [discriminate|].
  destruct (filter _ poll) as [|key keys]; [apply IH|].
  destruct (handle_keys _ _ _) as [[t|m] w2| | |] eqn:Hk; try discriminate.
  - apply IH.
  - intros [= <- _]. eapply handle_keys_range, Hk.
Qed.

Lemma get_numeric_input_from_never_raises polls : forall input_text w e w',
  get_numeric_input_from polls input_text w <> Raised e w'.
Proof.
  induction polls as [|poll rest IH]; intros input_text w e w';
    cbn [get_numeric_input_from]; [discriminate|].
  destruct (filter _ poll) as [|key keys]; [apply IH|].
  destruct (handle_keys _ _ _) as [[t|m] w2| | |] eqn:Hk; try discriminate.
  - apply IH.
  - now apply handle_keys_never_raises in Hk.
Qed.

End ConfidenceInput.

(** C6.  What [get_numeric_input] returns lies between 0 and 100, and no
    exception leaves the routine whatever is typed.  An entry confirmed
    with [return] that is empty, holds a character that is no digit or
    exceeds 100 is turned down: the INVALID INPUT banner is shown, the box
    is drawn again with the same content and the routine waits for the
    next keys. *)
Theorem C6_confidence_in_range (w : World) :
  (forall n w', get_numeric_input w = Done n w' -> 0 <= n <= 100)
  /\ (forall e w', get_numeric_input w <> Raised e w')
  /\ (forall input_text rest,
        input_text = "" \/ all_chars is_digit input_text = false
        \/ (exists n, int input_text = Some n /\ 100 < n) ->
        get_numeric_input_from (["return"] :: rest) input_text w
        = get_numeric_input_from rest input_text
            (add_event (Prompt input_text)
               (add_event (Show InvalidInput) (set_kb rest w)))).
Proof.
  split; [|split].
  - intros n w'. apply get_numeric_input_from_range.
  - intros e w'. apply get_numeric_input_from_never_raises.
  - intros input_text rest H. apply valid_input_false in H.
    cbn. now rewrite H.
Qed.

Lemma C6_witness :
  let w := mkWorld [["1"]; ["0"]; ["1"]; ["return"]; ["backspace"];
                    ["return"]] [] [] [] [] [] in
  (exists w', get_numeric_input w = Done 10 w') /\ 0 <= 10 <= 100
  /\ get_numeric_input_from [["return"]; ["backspace"]; ["return"]] "101"
       (set_kb [["return"]; ["backspace"]; ["return"]] w)
     = get_numeric_input_from [["backspace"]; ["return"]] "101"
         (add_event (Prompt "101")
            (add_event (Show InvalidInput)
               (set_kb [["backspace"]; ["return"]] w))).
Proof.
  cbv zeta.
  set (w := mkWorld [["1"]; ["0"]; ["1"]; ["return"]; ["backspace"];
                     ["return"]] [] [] [] [] []).
  split; [eexists; reflexivity|]. split.
  - destruct (get_numeric_input w) as [n w'| | |] eqn:H; try discriminate.
    assert (Hn : n = 10) by (vm_compute in H; congruence).
    rewrite <- Hn.
    exact (proj1 (C6_confidence_in_range w) n w' H).
  - exact (proj2 (proj2 (C6_confidence_in_range
             (set_kb [["return"]; ["backspace"]; ["return"]] w)))
             "101" [["backspace"]; ["return"]]
             (or_intror (or_intror
                (ex_intro _ 101 (conj eq_refl (eq_refl : (100 ?= 101) = Lt)))))).
Defined.

(** ** The exchange with the device *)

Section DeviceExchange.

(** A wait for the device that comes back has read [pre], none of which
    strips to the acknowledgment, each followed by a keyboard poll without
    escape and a pause, and then the acknowledgment [ended]. *)
Lemma await_ended_from_done reads : forall w u w',
  serial w = reads ->
  await_ended_from reads w = Done u w' ->
  exists pre ended polls,
    serial w = pre ++ ended :: serial w'
    /\ forallb (fun r => negb (is_ended r)) pre = true
    /\ is_ended ended = true
    /\ kb w = polls ++ kb w'
    /\ List.length polls = List.length pre
    /\ forallb no_escape polls = true
    /\ trace w' = trace w ++ polling pre ++ [SerialRead ended].
Proof.
  induction reads as [|received_data rest IH]; intros w u w' Hs;
    cbn [await_ended_from]; [discriminate|].
  destruct (String.eqb (strip received_data) "ENDED;") eqn:He.
  - intros [= <- <-]. exists [], received_data, []. cbn. rewrite Hs.
    repeat split; auto.
  - unfold getKeys. cbn [kb add_event set_serial].
    destruct (kb w) as [|keys polls'] eqn:Hk; [discriminate|].
    destruct (mem "escape" keys) eqn:Hesc; [discriminate|].
    intros H. apply IH in H; [|reflexivity].
    destruct H as (pre & ended & polls & H1 & H2 & H3 & H4 & H5 & H6 & H7).
    exists (received_data :: pre), ended, (keys :: polls).
    cbn in H1, H4, H7 |- *. rewrite Hs.
    unfold is_ended at 1. unfold no_escape at 1. rewrite He, Hesc. cbn.
    repeat split; auto.
    + now rewrite H1.
    + now rewrite H4.
    + rewrite H7, <- !app_assoc. reflexivity.
Qed.

Lemma after_device_confined :
  confined pause_event
    (bind (record_response (List.length buttons))
       (fun response => bind (emit (Wait 2000))
                          (fun _ => code_response response))).
Proof.
  apply confined_bind; [apply record_response_confined|]. intros r.
  apply confined_bind; [now apply confined_emit|]. intros _.
  apply code_response_confined.
Qed.

Lemma filter_none (f g : Event -> bool) evs :
  (forall e, g e = true -> f e = false) ->
  forallb g evs = true -> filter f evs = [].
Proof.
  intros Hfg. induction evs as [|e evs IH]; cbn; [reflexivity|].
  intros H. apply andb_true_iff in H as [He Hevs].
  now rewrite (Hfg e He), IH.
Qed.

Lemma not_in_allowed (g : Event -> bool) e evs :
  g e = false -> forallb g evs = true -> ~ In e evs.
Proof.
  intros He H Hin. rewrite forallb_forall in H. apply H in Hin. congruence.
Qed.

Lemma filter_write_polling pre : filter is_write (polling pre) = [].
Proof. induction pre as [|r pre IH]; cbn; auto. Qed.

Lemma trace_after_commands d w :
  trace (add_event (SerialWrite "START;")
           (add_event (SerialWrite ("DELAY" ++ py_str d ++ ";"))
              (add_event (Wait 500) (add_event (Show HeartImage) w))))
  = trace w ++ [Show HeartImage; Wait 500;
                SerialWrite ("DELAY" ++ py_str d ++ ";"); SerialWrite "START;"].
Proof. cbn. now rewrite <- !app_assoc. Qed.

(** A trial that stops inside the wait for the device has not shown the
    question. *)
Lemma stopped_in_wait d w w5 :
  evolves device_event
    (add_event (SerialWrite "START;")
       (add_event (SerialWrite ("DELAY" ++ py_str d ++ ";"))
          (add_event (Wait 500) (add_event (Show HeartImage) w)))) w5 ->
  exists evs,
    trace w5 = trace w ++ evs
    /\ filter is_write evs
       = [SerialWrite ("DELAY" ++ py_str d ++ ";"); SerialWrite "START;"]
    /\ ~ In (Show BeepsQuestion) evs.
Proof.
  intros [_ (evs' & Ht & Ha)]. rewrite trace_after_commands in Ht.
  eexists. split; [rewrite Ht, <- app_assoc; reflexivity|]. split.
  - cbn. now rewrite (filter_none is_write device_event evs' ltac:(now intros []) Ha).
  - cbn. intros [H|[H|[H|[H|H]]]]; try discriminate.
    now apply (not_in_allowed device_event (Show BeepsQuestion) evs' eq_refl Ha)
      in H.
Qed.

Lemma trial_body_follows_protocol d w :
  follows_protocol d w (trial_body d true w).
Proof.
  unfold follows_protocol, trial_body, device_exchange, await_ended.
  unfold bind at 1 2 3 4 5. unfold emit at 1 2 3 4. cbn [serial add_event].
  set (w4 := add_event _ (add_event _ (add_event _ (add_event _ w)))).
  pose proof (await_ended_from_confined (serial w) w4) as Hc.
  unfold bind at 1. cbn beta. change (serial w4) with (serial w).
  destruct (await_ended_from (serial w) w4) as [u w5|w5|w5|e w5] eqn:Ha;
    cbn [world_of] in Hc |- *.
  2-4: destruct (stopped_in_wait d w w5 Hc) as (evs & H1 & H2 & H3);
       exists evs; repeat split; auto; intros H; now destruct (H3 H).
  unfold emit at 1. unfold bind at 1. unfold emit at 1.
  set (w7 := add_event (Show BeepsQuestion) (add_event (Wait 1000) w5)).
  destruct (after_device_confined w7) as [_ (tail & Ht & Hp)].
  apply await_ended_from_done in Ha; [|reflexivity].
  destruct Ha as (pre & ended & polls & H1 & H2 & H3 & H4 & H5 & H6 & H7).
  exists ([Show HeartImage; Wait 500;
           SerialWrite ("DELAY" ++ py_str d ++ ";"); SerialWrite "START;"]
          ++ polling pre
          ++ [SerialRead ended; Wait 1000; Show BeepsQuestion] ++ tail).
  split; [|split].
  - rewrite Ht. subst w7. cbn [trace add_event]. rewrite H7.
    unfold w4. rewrite trace_after_commands.
    rewrite <- !app_assoc. reflexivity.
  - rewrite !filter_app, filter_write_polling.
    rewrite (filter_none is_write pause_event tail ltac:(now intros []) Hp).
    reflexivity.
  - intros _. exists pre, ended, (serial w5), polls, (kb w5), tail.
    repeat split; auto.
Qed.

End DeviceExchange.

(** ** The numeral of an integer holds no point *)

Section Numerals.

Lemma has_char_app c s t :
  has_char c (s ++ t)%string = has_char c s || has_char c t.
Proof.
  induction s as [|d s IH]; cbn; [reflexivity|].
  now rewrite IH, orb_assoc.
Qed.

Lemma digit_char_not_point d :
  0 <= d < 10 -> Ascii.eqb "." (digit_char d) = false.
Proof.
  intros H.
  assert (Hd : d = 0 \/ d = 1 \/ d = 2 \/ d = 3 \/ d = 4 \/ d = 5 \/ d = 6
               \/ d = 7 \/ d = 8 \/ d = 9) by lia.
  repeat (destruct Hd as [->|Hd]; [reflexivity|]). now subst.
Qed.

Lemma nat_digits_no_point fuel : forall n acc,
  has_char "." acc = false -> has_char "." (nat_digits fuel n acc) = false.
Proof.
  induction fuel as [|fuel IH]; intros n acc Hacc; cbn [nat_digits];
    [exact Hacc|].
  assert (Hacc' : has_char "." (String (digit_char (n mod 10)) acc) = false).
  { cbn [has_char]. rewrite digit_char_not_point, Hacc; [reflexivity|].
    apply Z.mod_pos_bound. lia. }
  destruct (n / 10 =? 0); [exact Hacc' | now apply IH].
Qed.

Lemma str_int_no_point n : has_char "." (str_int n) = false.
Proof.
  unfold str_int. destruct (n <? 0).
  - rewrite has_char_app. cbn [has_char orb].
    now rewrite nat_digits_no_point.
  - now apply nat_digits_no_point.
Qed.

Lemma delay_command_of_float_is_no_integer_command n :
  "DELAY400.0;" <> ("DELAY" ++ str_int n ++ ";")%string.
Proof.
  intros H. apply (f_equal (has_char ".")) in H.
  rewrite !has_char_app, str_int_no_point in H. discriminate.
Qed.

End Numerals.

(** C5, as amended.  In a trial with the device, the bytes written to the
    serial port are [DELAY], Python's [str] of the delay and [;], then
    [START;], and nothing else.  For an [int] delay (the training trials)
    [str] gives the numeral of the integer.  The question is shown only
    after reads of the port of which the last strips to [ENDED;], every
    earlier read being followed by a keyboard poll that holds no escape
    and a pause of 0.1 s. *)
Theorem C5_serial_exchange (current_delay : PyNum) (w : World) :
  follows_protocol current_delay w (run_staircase_trial current_delay true w)
  /\ follows_protocol current_delay w (run_set_delay_trial current_delay true w)
  /\ (forall n, current_delay = PyInt n ->
        ("DELAY" ++ py_str current_delay ++ ";")%string
        = ("DELAY" ++ str_int n ++ ";")%string).
Proof.
  split; [|split].
  - apply trial_body_follows_protocol.
  - apply trial_body_follows_protocol.
  - now intros n ->.
Qed.

Lemma C5_witness :
  let w := mkWorld [[]; []] [mkMouse (Nat.eqb 2) true 0] ["EN"; "ENDED;"]
             [] [] [] in
  ("DELAY" ++ py_str (PyInt 350) ++ ";")%string = "DELAY350;"
  /\ follows_protocol (PyInt 350) w (run_set_delay_trial (PyInt 350) true w).
Proof.
  cbv zeta. split.
  - exact (proj2 (proj2 (C5_serial_exchange (PyInt 350)
                           (mkWorld [] [] [] [] [] []))) 350 eq_refl).
  - exact (proj1 (proj2 (C5_serial_exchange (PyInt 350)
             (mkWorld [[]; []] [mkMouse (Nat.eqb 2) true 0] ["EN"; "ENDED;"]
                [] [] [])))).
Defined.

(** C5, as worded, fails on a staircase delay: the first staircase starts
    at the float [400.0], and the command written for it is [DELAY400.0;],
    which is [DELAY<integer>;] for no integer. *)
Lemma C5_counterexample :
  let w := mkWorld [[]] [mkMouse (Nat.eqb 0) true 0] ["ENDED;"] [] [] [] in
  filter is_write
    (trace (world_of (run_staircase_trial (PyFloat 400) true w)))
  = [SerialWrite "DELAY400.0;"; SerialWrite "START;"]
  /\ forall n : Z,
       SerialWrite "DELAY400.0;"
       <> SerialWrite ("DELAY" ++ str_int n ++ ";")%string.
Proof.
  cbv zeta. split; [reflexivity|].
  intros n H. apply (delay_command_of_float_is_no_integer_command n).
  exact (f_equal (fun e => match e with SerialWrite b => b | _ => "" end) H).
Qed.

(** ** The questionnaire *)

Section Questionnaire.

Lemma question_response_from_done polls um scale : forall pos w r w',
  question_response_from polls um scale pos w = Done r w' ->
  csv w' = csv w /\ is_number r = true.
Proof.
  induction polls as [polls IH] using (well_founded_induction
    (well_founded_ltof _ (@List.length (list string)))).
  destruct polls as [|keys rest]; intros pos w r w';
    cbn [question_response_from]; [discriminate|].
  destruct (mem "escape" keys); [discriminate|].
  destruct um.
  - cbn [mouse set_kb]. destruct (mouse w) as [|m snaps]; [discriminate|].
    destruct (pressed m).
    + intros [= <- <-]. now split.
    + intros H. apply IH in H; [exact H|]. unfold ltof. cbn. lia.
  - destruct rest as [|keys2 rest2]; [discriminate|].
    destruct (mem "left" keys2); [intros [= <- <-]; now split|].
    destruct (mem "right" keys2); [intros [= <- <-]; now split|].
    intros H. apply IH in H; [exact H|]. unfold ltof. cbn. lia.
Qed.

Lemma ask_question_done um label question scale w u w' :
  ask_question um (label, question, scale) w = Done u w' ->
  exists response,
    is_number response = true
    /\ csv w' = csv w ++ [post_task_row label response].
Proof.
  unfold ask_question. destruct (uniform w) as [|pos draws]; [discriminate|].
  intros H. apply bind_done in H as (r & w2 & Hr & H).
  apply question_response_from_done in Hr as [Hc Hn].
  apply writerow_done in H. subst w'. exists r. split; [exact Hn|].
  cbn [csv add_row]. now rewrite Hc.
Qed.

Lemma post_task_row_fields label response :
  let row := post_task_row label response in
  field "Staircase_name" row = Some (CStr "Post_task_question")
  /\ field "Trial" row = Some (CStr label)
  /\ field "Current Delay" row = Some response
  /\ field "Button" row = Some NA
  /\ field "Response_code" row = Some NA
  /\ field "Confidence" row = Some NA.
Proof. cbv zeta. repeat split. Qed.

End Questionnaire.




(** ** The training phase *)

Section Training.

Lemma openings_inner evs : forallb inner evs = true -> openings evs = [].
Proof.
  intros H. apply (filter_none opening inner evs); [|exact H].
  intros e He. unfold inner in He. now destruct (opening e).
Qed.

Lemma openings_app xs ys : openings (xs ++ ys) = openings xs ++ openings ys.
Proof. apply filter_app. Qed.

(** What a run of a routine that opens with one of the three opening
    screens adds to the world. *)
Lemma opens_with_run {A} s (c : M A) w a w' :
  opening (Show s) = true -> opens_with s c -> c w = Done a w' ->
  csv w' = csv w
  /\ exists evs, trace w' = trace w ++ evs /\ openings evs = [Show s].
Proof.
  intros Hs Hc H. destruct (Hc w a w' H) as [Hcsv (evs & Ht & Hin)].
  split; [exact Hcsv|]. exists (Show s :: evs). split; [exact Ht|].
  unfold openings. cbn [filter]. rewrite Hs.
  f_equal. exact (openings_inner evs Hin).
Qed.

(** One pass of the training loop that comes back, taken apart. *)
Lemma training_pass hw i delay rest w u w' :
  training_trials hw i (delay :: rest) w = Done u w' ->
  exists button response_code w1 confidence w2,
    run_set_delay_trial delay hw w = Done (button, response_code) w1
    /\ get_numeric_input w1 = Done confidence w2
    /\ let w3 := add_row (trial_row "Training" i delay button response_code
                            confidence) w2 in
       if (0 <? i)%nat then
         exists next_action w4,
           ask_run_another w3 = Done next_action w4
           /\ if String.eqb next_action "stop" then w' = w4
              else training_trials hw (S i) rest w4 = Done u w'
       else training_trials hw (S i) rest w3 = Done u w'.
Proof.
  cbn [training_trials]. intros H.
  apply bind_done in H as ([button response_code] & w1 & H1 & H).
  apply bind_done in H as (confidence & w2 & H2 & H).
  apply bind_done in H as (? & w3 & H3 & H).
  apply writerow_done in H3. subst w3.
  exists button, response_code, w1, confidence, w2.
  split; [exact H1|]. split; [exact H2|]. cbv zeta.
  destruct (0 <? i)%nat; [|exact H].
  apply bind_done in H as (next_action & w4 & H4 & H).
  exists next_action, w4. split; [exact H4|].
  destruct (String.eqb next_action "stop"); [|exact H].
  now injection H as _ <-.
Qed.

Lemma training_trials_done hw values : forall i w u w',
  training_trials hw i values w = Done u w' ->
  exists k rows evs,
    (k <= List.length values)%nat
    /\ csv w' = csv w ++ rows
    /\ training_rows i (firstn k values) rows
    /\ trace w' = trace w ++ evs
    /\ openings evs = training_openings i k.
Proof.
  induction values as [|delay rest IH]; intros i w u w' H.
  - injection H as _ <-. exists 0%nat, [], []. cbn.
    rewrite !app_nil_r. repeat split; auto.
  - apply training_pass in H
      as (button & code & w1 & confidence & w2 & H1 & H2 & H).
    pose proof (trial_body_table _ _ _ _ _ H1) as Hin.
    pose proof (get_numeric_input_from_range _ _ _ _ _ H2) as Hrange.
    apply (opens_with_run HeartImage) in H1
      as [C1 (e1 & T1 & O1)]; [|reflexivity|apply trial_body_opens].
    apply (opens_with_run ConfidenceQuestion) in H2
      as [C2 (e2 & T2 & O2)]; [|reflexivity|apply get_numeric_input_opens].
    cbv zeta in H.
    set (row := trial_row "Training" i delay button code confidence) in *.
    assert (Hrow : exists b c n,
               In (b, c) answers /\ 0 <= n <= 100
               /\ row = trial_row "Training" i delay b c n).
    { now exists button, code, confidence. }
    destruct (0 <? i)%nat eqn:Hi.
    + destruct H as (next_action & w4 & H4 & H).
      apply (opens_with_run AnotherQuestion) in H4
        as [C4 (e4 & T4 & O4)]; [|reflexivity|apply ask_run_another_opens].
      cbn [csv trace add_row] in C4, T4.
      destruct (String.eqb next_action "stop").
      * subst w'. exists 1%nat, [row], (e1 ++ e2 ++ e4).
        cbn [firstn training_rows training_openings List.length].
        rewrite Hi, !openings_app, O1, O2, O4.
        repeat split; auto; try lia.
        -- now rewrite C4, C2, C1.
        -- now rewrite T4, T2, T1, <- !app_assoc.
      * apply IH in H as (k & rows & evs & Hk & Hc & Hr & Ht & Ho).
        exists (S k), (row :: rows), (e1 ++ e2 ++ e4 ++ evs).
        cbn [firstn training_rows training_openings List.length].
        rewrite Hi, !openings_app, O1, O2, O4, Ho.
        repeat split; auto; try lia.
        -- now rewrite Hc, C4, C2, C1, <- app_assoc.
        -- now rewrite Ht, T4, T2, T1, <- !app_assoc.
    + apply IH in H as (k & rows & evs & Hk & Hc & Hr & Ht & Ho).
      cbn [csv trace add_row] in Hc, Ht.
      exists (S k), (row :: rows), (e1 ++ e2 ++ evs).
      cbn [firstn training_rows training_openings List.length].
      rewrite Hi, !openings_app, O1, O2, Ho.
      repeat split; auto; try lia.
      -- now rewrite Hc, C2, C1, <- app_assoc.
      -- now rewrite Ht, T2, T1, <- !app_assoc.
Qed.


End Training.




(** ** The trial loop of a staircase *)

Section StaircaseLoop.

(** A response that the engine accepts and counts. *)
Lemma addResponse_counted response_code s s' :
  (response_code =? -1) = false ->
  addResponse response_code s = inr s' ->
  name s' = name s
  /\ maxTrials s' = maxTrials s
  /\ targetReversals s' = targetReversals s
  /\ trialsRun s' = S (trialsRun s)
  /\ finished s' = caps_reached s'.
Proof.
  intros Hc. unfold addResponse, decode. rewrite Hc.
  assert (Hgen : forall code, is_signal code = true ->
            applyResponse code s = inr s' ->
            name s' = name s /\ maxTrials s' = maxTrials s
            /\ targetReversals s' = targetReversals s
            /\ trialsRun s' = S (trialsRun s)
            /\ finished s' = caps_reached s').
  { intros code Hsig H.
    assert (Hrun : finished s = false).
    { unfold applyResponse in H. destruct (finished s); [discriminate|easy]. }
    pose proof (call_signal_flag s code Hrun Hsig) as Hflag.
    unfold call in Hflag. rewrite H in Hflag.
    unfold applyResponse in H. rewrite Hrun in H.
    destruct code; try discriminate; cbn beta iota zeta in H;
      injection H as <-;
      repeat match goal with
             | |- context [if ?b then _ else _] => destruct b
             end; repeat split; try reflexivity; exact Hflag. }
  destruct (response_code =? 0); [now apply Hgen|].
  destruct (response_code =? 1); [now apply Hgen | discriminate].
Qed.

(** One trial of the loop that comes back, taken apart. *)
Lemma staircase_trial_done hw trial s w s' w' :
  staircase_trial hw trial s w = Done s' w' ->
  exists button response_code w1 confidence w2,
    finished s = false
    /\ run_staircase_trial (currentValue s) hw w
       = Done (button, response_code) w1
    /\ get_numeric_input w1 = Done confidence w2
    /\ w' = add_row (trial_row (name s) trial (currentValue s) button
                       response_code confidence) w2
    /\ (if response_code =? -1 then s' = s
        else addResponse response_code s = inr s').
Proof.
  unfold staircase_trial, nextValue. intros H.
  apply bind_done in H as (current_delay & w0 & H0 & H).
  destruct (finished s); [discriminate|].
  injection H0 as <- <-.
  apply bind_done in H as ([button response_code] & w1 & H1 & H).
  apply bind_done in H as (s1 & w1' & Hs & H).
  apply bind_done in H as (confidence & w2 & H2 & H).
  apply bind_done in H as (? & w3 & H3 & H).
  apply writerow_done in H3. injection H as <- <-. subst w3.
  exists button, response_code, w1, confidence, w2.
  destruct (response_code =? -1).
  - injection Hs as <- <-. now repeat split.
  - unfold lift in Hs. destruct (addResponse response_code s) as [e|s2];
      [discriminate|].
    injection Hs as <- <-. now repeat split.
Qed.

Lemma is_repeat_row_trial_row staircase_name trial delay button code conf :
  is_repeat_row (trial_row staircase_name trial delay button code conf)
  = (code =? -1).
Proof. reflexivity. Qed.

Lemma counted_cons row rows :
  counted (row :: rows)
  = ((if is_repeat_row row then 0 else 1) + counted rows)%nat.
Proof. unfold counted. cbn [filter]. now destruct (is_repeat_row row). Qed.

Lemma flag_agrees_counted s :
  (0 < trialsRun s)%nat -> finished s = caps_reached s -> flag_agrees s.
Proof.
  intros Hn H. unfold flag_agrees.
  apply Nat.ltb_lt in Hn. now rewrite Hn.
Qed.

(** What a trial loop that comes back has done: it has logged at most
    [remaining] rows of the staircase, the staircase has counted the
    trials not answered "same time" and nothing else, and unless escape
    was pressed (the one way [WinClose] gets into the trace here) or the
    staircase finished, every pass was used. *)
Lemma staircase_trials_done hw remaining : forall trial s w s' w',
  staircase_trials hw trial remaining s w = Done s' w' ->
  exists rows evs,
    csv w' = csv w ++ rows
    /\ trace w' = trace w ++ evs
    /\ staircase_rows (name s) trial rows
    /\ (List.length rows <= remaining)%nat
    /\ name s' = name s
    /\ maxTrials s' = maxTrials s
    /\ targetReversals s' = targetReversals s
    /\ trialsRun s' = (trialsRun s + counted rows)%nat
    /\ (flag_agrees s -> flag_agrees s')
    /\ (~ In WinClose evs -> finished s' = false ->
        List.length rows = remaining).
Proof.
  induction remaining as [|remaining IH]; intros trial s w s' w' H.
  - injection H as <- <-. exists [], []. cbn. rewrite !app_nil_r.
    repeat split; auto.
  - cbn [staircase_trials] in H.
    apply bind_done in H as (keys & w0 & Hk & H).
    assert (Hw0 : csv w0 = csv w /\ trace w0 = trace w).
    { unfold getKeys in Hk. destruct (kb w); [discriminate|].
      injection Hk as _ <-. now split. }
    destruct Hw0 as [C0 T0].
    destruct (mem "escape" keys).
    { apply bind_done in H as (? & wa & Ha & H).
      apply bind_done in H as (? & wb & Hb & H).
      apply emit_done in Ha, Hb. injection H as <- <-. subst wb wa.
      exists [], [CsvClose; WinClose]. cbn. rewrite C0, T0, !app_nil_r.
      repeat split; auto; try lia.
      - now rewrite <- app_assoc.
      - intros Hn. exfalso. apply Hn. now right; left. }
    destruct (finished s) eqn:Hfin.
    { injection H as <- <-. exists [], []. rewrite C0, T0, !app_nil_r.
      cbn. repeat split; auto; try lia. congruence. }
    apply bind_done in H as (s1 & w3 & Ht & H).
    apply staircase_trial_done in Ht
      as (button & code & w1 & confidence & w2 & _ & H1 & H2 & -> & Hs).
    pose proof (trial_body_table _ _ _ _ _ H1) as Hin.
    pose proof (get_numeric_input_from_range _ _ _ _ _ H2) as Hrange.
    apply (opens_with_run HeartImage) in H1
      as [C1 (e1 & T1 & O1)]; [|reflexivity|apply trial_body_opens].
    apply (opens_with_run ConfidenceQuestion) in H2
      as [C2 (e2 & T2 & O2)]; [|reflexivity|apply get_numeric_input_opens].
    apply IH in H
      as (rows & evs & Hc & Ht & Hr & Hlen & Hn & Hm & Hg & Hcnt & Hflag & Hall).
    cbn [csv trace add_row] in Hc, Ht.
    set (row := trial_row (name s) trial (currentValue s) button code
                  confidence) in *.
    assert (Hs1 : name s1 = name s /\ maxTrials s1 = maxTrials s
                  /\ targetReversals s1 = targetReversals s
                  /\ trialsRun s1
                     = (trialsRun s + (if (code =? -1)%Z then 0 else 1))%nat
                  /\ (flag_agrees s -> flag_agrees s1)).
    { destruct (code =? -1) eqn:Hcode.
      - subst s1. rewrite Nat.add_0_r. now repeat split.
      - apply (addResponse_counted code s s1 Hcode) in Hs
          as (E1 & E2 & E3 & E4 & E5).
        repeat split; auto; try lia.
        intros _. apply flag_agrees_counted; [lia | exact E5]. }
    destruct Hs1 as (N1 & M1 & G1 & R1 & F1).
    exists (row :: rows), (e1 ++ e2 ++ evs).
    rewrite counted_cons.
    replace (is_repeat_row row) with (code =? -1)
      by (symmetry; apply is_repeat_row_trial_row).
    split; [now rewrite Hc, C2, C1, C0, <- app_assoc|].
    split; [now rewrite Ht, T2, T1, T0, <- !app_assoc|].
    split.
    { cbn [staircase_rows]. split.
      - now exists (currentValue s), button, code, confidence.
      - now rewrite <- N1. }
    split; [cbn; lia|].
    split; [congruence|]. split; [congruence|]. split; [congruence|].
    split; [rewrite Hcnt, R1; lia|].
    split; [auto|].
    intros Hno Hf. cbn [List.length]. f_equal. apply Hall; [|exact Hf].
    intros Hin'. apply Hno. rewrite !in_app_iff. auto.
Qed.

End StaircaseLoop.

Lemma counted_le_length rows : (counted rows <= List.length rows)%nat.
Proof. unfold counted. apply filter_length_le. Qed.

(** C1, as amended.  In a pass of the trial loop whose trial is answered
    "same time" (code -1) and whose rating is given, the script does not
    call [addResponse]: the loop goes on with the very same staircase, so
    none of its counters has moved and it hands out the same delay to the
    next pass, if there is one.  The rating was collected and exactly one
    row was logged for the trial, with the delay, "same time", -1 and the
    rating. *)
Theorem C1_repeat_trial (is_integrated_external : bool)
  (trial remaining : nat) (staircase : Staircase) (w : World)
  (keys : list string) (polls : list (list string)) (button : string)
  (w1 : World) (confidence : Z) (w2 : World) :
  kb w = keys :: polls ->
  mem "escape" keys = false ->
  finished staircase = false ->
  run_staircase_trial (currentValue staircase) is_integrated_external
    (set_kb polls w) = Done (button, -1) w1 ->
  get_numeric_input w1 = Done confidence w2 ->
  let row := trial_row (name staircase) trial (currentValue staircase)
               "same time" (-1) confidence in
  staircase_trials is_integrated_external trial (S remaining) staircase w
  = staircase_trials is_integrated_external (S trial) remaining staircase
      (add_row row w2)
  /\ csv (add_row row w2) = csv w ++ [row]
  /\ nextValue staircase = inr (currentValue staircase)
  /\ 0 <= confidence <= 100.
Proof.
  intros Hk Hesc Hfin H1 H2 row.
  assert (Hb : button = "same time").
  { pose proof (trial_body_table _ _ _ _ _ H1) as Hin. cbn in Hin.
    destruct Hin as [[= <-]|[[= <-]|[[= <-]|[]]]]. reflexivity. }
  subst button. split; [|split; [|split]].
  - cbn [staircase_trials]. unfold bind at 1, getKeys. rewrite Hk.
    rewrite Hesc, Hfin.
    unfold bind at 1. unfold staircase_trial, nextValue. rewrite Hfin.
    unfold lift at 1, bind at 1, ret at 1.
    unfold bind at 1. rewrite H1. cbn iota beta.
    unfold bind at 1, ret at 1.
    change (-1 =? -1) with true. cbn iota beta.
    unfold bind at 1. rewrite H2.
    reflexivity.
  - apply (opens_with_run HeartImage) in H1
      as [C1 _]; [|reflexivity|apply trial_body_opens].
    apply (opens_with_run ConfidenceQuestion) in H2
      as [C2 _]; [|reflexivity|apply get_numeric_input_opens].
    cbn [csv add_row]. now rewrite C2, C1.
  - unfold nextValue. now rewrite Hfin.
  - eapply get_numeric_input_from_range, H2.
Qed.

Lemma C1_witness :
  let click := mkMouse (Nat.eqb 1) true 0 in
  let staircase := StairHandler (PyFloat 400) (PyInt 50) 3 15 2 2 (PyFloat 0)
                     (PyFloat 1000) "400_1" in
  let w := mkWorld [[]; []; ["5"]; ["return"]] [click] [] [] [] [] in
  let w2 := mkWorld [] [] [] [] []
              [Show HeartImage; Wait 500; Wait 2000; Show BeepsQuestion;
               Wait 2000; Show ConfidenceQuestion; Prompt ""; Prompt "5"] in
  let row := trial_row "400_1" 0 (PyFloat 400) "same time" (-1) 5 in
  staircase_trials false 0 2 staircase w
  = staircase_trials false 1 1 staircase (add_row row w2)
  /\ csv (add_row row w2) = [row]
  /\ nextValue staircase = inr (PyFloat 400)
  /\ 0 <= 5 <= 100.
Proof.
  cbv zeta.
  apply (C1_repeat_trial false 0 1
           (StairHandler (PyFloat 400) (PyInt 50) 3 15 2 2 (PyFloat 0)
              (PyFloat 1000) "400_1")
           (mkWorld [[]; []; ["5"]; ["return"]] [mkMouse (Nat.eqb 1) true 0]
              [] [] [] [])
           [] [[]; ["5"]; ["return"]] "same time"
           (mkWorld [["5"]; ["return"]] [] [] [] []
              [Show HeartImage; Wait 500; Wait 2000; Show BeepsQuestion;
               Wait 2000])
           5
           (mkWorld [] [] [] [] []
              [Show HeartImage; Wait 500; Wait 2000; Show BeepsQuestion;
               Wait 2000; Show ConfidenceQuestion; Prompt ""; Prompt "5"]));
    reflexivity.
Defined.

(** C1, as worded, fails.  On the first staircase with every trial
    answered "same time", the loop logs fifteen rows of the delay 400.0
    numbered 1 to 15 and is over: the trial counter of the loop has gone
    up with every repeated trial, and the trial of the fifteenth pass is
    not presented again. *)
Lemma C1_counterexample :
  let click := mkMouse (Nat.eqb 1) true 0 in
  let staircase := StairHandler (PyFloat 400) (PyInt 50) 3 15 2 2 (PyFloat 0)
                     (PyFloat 1000) "400_1" in
  let w := mkWorld (List.concat (repeat [[]; []; ["5"]; ["return"]] 15))
             (repeat click 15) [] [] [] [] in
  let rows := map (fun trial => trial_row "400_1" trial (PyFloat 400)
                                  "same time" (-1) 5) (seq 0 15) in
  (exists w', staircase_trials false 0 15 staircase w = Done staircase w'
              /\ csv w' = rows)
  /\ field "Trial" (nth 0 rows []) = Some (CNum (PyInt 1))
  /\ field "Trial" (nth 1 rows []) = Some (CNum (PyInt 2))
  /\ is_repeat_row (nth 14 rows []) = true
  /\ nth_error rows 15 = None
  /\ ~ readministered rows.
Proof.
  cbv zeta. split; [eexists; split; vm_compute; reflexivity|].
  repeat (split; [reflexivity|]).
  intros H. destruct (H 14%nat _ eq_refl eq_refl) as (next & Hn & _).
  discriminate Hn.
Qed.

(** C2, as amended.  The trial loop of a staircase built with 15 trials
    and 3 reversals administers at most 15 trials, the ones answered
    "same time" included, and exactly 15 unless escape is pressed or the
    reversals are reached.  The staircase counts the trials not answered
    "same time" and no others; short of 3 reversals, it is finished when
    the loop ends exactly when 15 trials were counted, that is when all 15
    passes were used and none was answered "same time". *)
Theorem C2_trial_budget (is_integrated_external : bool)
  (startVal stepSizes : PyNum) (nUp nDown : nat) (minVal maxVal : PyNum)
  (name : string) (w : World) (staircase' : Staircase) (w' : World) :
  staircase_trials is_integrated_external 0 15
    (StairHandler startVal stepSizes 3 15 nUp nDown minVal maxVal name) w
  = Done staircase' w' ->
  (reversalCount staircase' < 3)%nat ->
  exists rows evs,
    csv w' = csv w ++ rows
    /\ trace w' = trace w ++ evs
    /\ staircase_rows name 0 rows
    /\ (List.length rows <= 15)%nat
    /\ trialsRun staircase' = counted rows
    /\ (finished staircase' = true <-> counted rows = 15%nat)
    /\ (~ In WinClose evs -> List.length rows = 15%nat).
Proof.
  intros H Hrev.
  apply staircase_trials_done in H
    as (rows & evs & Hc & Ht & Hr & Hlen & _ & Hm & Hg & Hcnt & Hflag & Hall).
  cbn in Hm, Hg, Hcnt, Hr.
  pose proof (counted_le_length rows) as Hle.
  assert (Hfin : finished staircase' = true <-> counted rows = 15%nat).
  { specialize (Hflag eq_refl). unfold flag_agrees, caps_reached in Hflag.
    rewrite Hm, Hg, Hcnt in Hflag. rewrite Hflag.
    replace (3 <=? reversalCount staircase')%nat with false
      by (symmetry; apply Nat.leb_gt; exact Hrev).
    rewrite orb_false_r, andb_true_iff, Nat.ltb_lt, Nat.leb_le. lia. }
  exists rows, evs. repeat split; auto; try apply Hfin.
  intros Hno. destruct (finished staircase') eqn:Hf.
  - assert (counted rows = 15%nat) by now apply Hfin. lia.
  - now apply Hall.
Qed.

Lemma C2_witness :
  let click := mkMouse (Nat.eqb 0) true 0 in
  let w := mkWorld (List.concat (repeat [[]; []; ["5"]; ["return"]] 15))
             (repeat click 15) [] [] [] [] in
  let staircase := StairHandler (PyFloat 400) (PyInt 50) 3 15 2 2 (PyFloat 0)
                     (PyFloat 1000) "400_1" in
  exists staircase' w' rows evs,
    staircase_trials false 0 15 staircase w = Done staircase' w'
    /\ csv w' = rows
    /\ trace w' = evs
    /\ staircase_rows "400_1" 0 rows
    /\ (List.length rows <= 15)%nat
    /\ trialsRun staircase' = counted rows
    /\ (finished staircase' = true <-> counted rows = 15%nat)
    /\ (~ In WinClose evs -> List.length rows = 15%nat).
Proof.
  cbv zeta.
  set (w := mkWorld _ _ _ _ _ _).
  set (staircase := StairHandler _ _ _ _ _ _ _ _ _).
  destruct (staircase_trials false 0 15 staircase w) as [s' w'| | |] eqn:H;
    try (vm_compute in H; discriminate H).
  assert (Hrev : (reversalCount s' < 3)%nat).
  { vm_compute in H. injection H as <- _. cbn. lia. }
  destruct (C2_trial_budget false _ _ _ _ _ _ _ w s' w' H Hrev)
    as (rows & evs & Hc & Ht & Hrest).
  exists s', w', rows, evs. split; [reflexivity|].
  split; [exact Hc|]. split; [exact Ht | exact Hrest].
Defined.

(** C2, as worded, fails.  On the first staircase with the first trial
    answered "same time" and the fourteen others "before", the loop is
    over after its fifteen passes: the staircase has counted fourteen
    trials, has no reversal, and is not finished. *)
Lemma C2_counterexample :
  let click i := mkMouse (Nat.eqb i) true 0 in
  let w := mkWorld (List.concat (repeat [[]; []; ["5"]; ["return"]] 15))
             (click 1%nat :: repeat (click 0%nat) 14) [] [] [] [] in
  let staircase := StairHandler (PyFloat 400) (PyInt 50) 3 15 2 2 (PyFloat 0)
                     (PyFloat 1000) "400_1" in
  exists staircase' w',
    staircase_trials false 0 15 staircase w = Done staircase' w'
    /\ List.length (csv w') = 15%nat
    /\ counted (csv w') = 14%nat
    /\ trialsRun staircase' = 14%nat
    /\ reversalCount staircase' = 0%nat
    /\ finished staircase' = false.
Proof.
  cbv zeta. eexists. eexists.
  split; [vm_compute; reflexivity|]. repeat split.
Qed.

(** ** Escape at the check of the trial loop *)

(** Escape seen at the top of a pass ends the trial loop of the staircase
    at hand, after [csv_file.close()] and [win.close()]: the loop comes
    back to the loop over the staircases, the session does not quit. *)
Lemma escape_leaves_trial_loop hw trial remaining s w keys polls :
  kb w = keys :: polls ->
  mem "escape" keys = true ->
  staircase_trials hw trial (S remaining) s w
  = Done s (add_event WinClose (add_event CsvClose (set_kb polls w))).
Proof.
  intros Hk He. cbn [staircase_trials]. unfold bind at 1, getKeys.
  now rewrite Hk, He.
Qed.

(** C4, on the script.  Escape is pressed at the first check of the first
    staircase; the operator then confirms the prompt between staircases
    with [return].  The script has closed the window, and goes on: the
    second staircase administers a trial on its start value 100.0, asks
    for the rating and logs the row.  (The scripted input ends there.)
    The serial port is closed nowhere. *)
Theorem C4_escape_at_loop_check :
  let click := mkMouse (Nat.eqb 0) true 0 in
  let w := mkWorld [["escape"]; ["return"]; []; []; ["5"]; ["return"]]
             [click] [] [] [] [] in
  exists w',
    staircase_phase false staircase_set w = Blocked w'
    /\ kb w' = []
    /\ csv w' = [trial_row "100_1" 0 (PyFloat 100) "before" 0 5]
    /\ trace w' = [CsvClose; WinClose; Wait 1000; Wait 3000;
                   Show HeartImage; Wait 500; Wait 2000; Show BeepsQuestion;
                   Wait 2000; Show ConfidenceQuestion; Prompt ""; Prompt "5"].
Proof.
  cbv zeta. eexists. split; [vm_compute; reflexivity|]. now repeat split.
Qed.

(** ** The log file name past the letter z *)

(** C7, on the script.  With a file of suffix [z] in the directory the
    next index is 26 and the suffix is [chr(ord('a') + 26)], the brace
    [{], which is no letter; and since a brace suffix is not collected,
    the same name is chosen again once that file exists. *)
Theorem C7_suffix_after_z :
  LogFile.csv_file_name "001" ["sub-001_s_hdt.tsv"; "sub-001_s_hdt_z.tsv"]
  = "sub-001_s_hdt_{.tsv"
  /\ LogFile.next_suffix [25] = "{"
  /\ isalpha "{" = false
  /\ LogFile.csv_file_name "001"
       ["sub-001_s_hdt.tsv"; "sub-001_s_hdt_z.tsv"; "sub-001_s_hdt_{.tsv"]
     = "sub-001_s_hdt_{.tsv".
Proof. repeat split. Qed.

(** Below the letter z the name is as the comment in the script says:
    [base_name], an underscore, one small letter and [.tsv], and no file
    of the directory bears it. *)

Section FreshName.

Local Open Scope string_scope.

Lemma length_app (s t : string) :
  String.length (s ++ t) = (String.length s + String.length t)%nat.
Proof. induction s as [|c s IH]; cbn; [reflexivity | now rewrite IH]. Qed.

Lemma startswith_app b x p : startswith (b ++ x) (b ++ p) = startswith x p.
Proof.
  induction b as [|c b IH]; cbn; [reflexivity|].
  now rewrite Ascii.eqb_refl, IH.
Qed.

Lemma startswith_self_app b x : startswith (b ++ x) b = true.
Proof.
  induction b as [|c b IH]; cbn; [now destruct x|].
  now rewrite Ascii.eqb_refl, IH.
Qed.

Lemma eqb_app b x y : String.eqb (b ++ x) (b ++ y) = String.eqb x y.
Proof.
  induction b as [|c b IH]; cbn; [reflexivity|].
  now rewrite Ascii.eqb_refl, IH.
Qed.

Lemma drop_app b x n :
  drop (String.length b + n) (b ++ x) = drop n x.
Proof. induction b as [|c b IH]; cbn; [reflexivity | exact IH]. Qed.

Lemma one_letter s :
  (len s =? 1)%Z && isalpha s = true ->
  exists c, s = String c "" /\ is_alpha c = true.
Proof.
  intros H. apply andb_true_iff in H as [Hl Ha].
  destruct s as [|c [|d s]]; try discriminate.
  - exists c. split; [reflexivity|].
    unfold isalpha in Ha. cbn in Ha. now rewrite andb_true_r in Ha.
  - unfold len in Hl. cbn [String.length] in Hl. apply Z.eqb_eq in Hl. lia.
Qed.

Lemma ord_lower_range c :
  is_alpha c = true -> 97 <= ord_char (lower_char c) <= 122.
Proof.
  unfold is_alpha, lower_char, ord_char, is_upper, is_lower.
  destruct ((65 <=? nat_of_ascii c) && (nat_of_ascii c <=? 90))%nat eqn:Hu.
  - intros _. apply andb_true_iff in Hu as [H1 H2].
    apply Nat.leb_le in H1, H2.
    rewrite nat_ascii_embedding by lia. lia.
  - cbn [orb]. intros H. apply andb_true_iff in H as [H1 H2].
    apply Nat.leb_le in H1, H2. lia.
Qed.

Lemma suffix_index_range base file i :
  LogFile.suffix_index base file = Some i -> 0 <= i <= 25.
Proof.
  unfold LogFile.suffix_index.
  destruct (String.eqb file _); [discriminate|].
  destruct (startswith file _ && endswith file _); [|discriminate].
  set (suffix := slice file _ _).
  destruct ((len suffix =? 1)%Z && isalpha suffix) eqn:H; [|discriminate].
  apply one_letter in H as (c & -> & Hc). cbn.
  intros [= <-]. pose proof (ord_lower_range c Hc).
  change (ord_char "a") with 97. lia.
Qed.

Lemma collect_indices_range base files :
  Forall (fun i => 0 <= i <= 25) (LogFile.collect_indices base files).
Proof.
  induction files as [|file files IH]; cbn; [constructor|].
  destruct (LogFile.suffix_index base file) eqn:H; [|exact IH].
  constructor; [eapply suffix_index_range, H | exact IH].
Qed.

Lemma collect_indices_in base files file i :
  In file files -> LogFile.suffix_index base file = Some i ->
  In i (LogFile.collect_indices base files).
Proof.
  induction files as [|f files IH]; cbn; [easy|].
  intros [->|Hin] Hi.
  - rewrite Hi. now left.
  - destruct (LogFile.suffix_index base f); [right|]; now apply IH.
Qed.

Lemma list_max_bounds xs : forall x,
  x <= LogFile.list_max x xs
  /\ (forall y, In y xs -> y <= LogFile.list_max x xs)
  /\ In (LogFile.list_max x xs) (x :: xs).
Proof.
  induction xs as [|z xs IH]; intros x; cbn [LogFile.list_max].
  - split; [lia|]. split; [easy | now left].
  - destruct (IH (Z.max x z)) as (H1 & H2 & H3). split; [lia|]. split.
    + intros y [->|Hy]; [lia | now apply H2].
    + destruct H3 as [H3|H3]; [|now right; right].
      rewrite <- H3. destruct (Z.max_spec x z) as [[_ ->]|[_ ->]];
        [right; now left | now left].
Qed.

Lemma next_index_bounds indices :
  Forall (fun i => 0 <= i < 25) indices ->
  0 <= LogFile.next_index indices <= 25
  /\ forall i, In i indices -> i < LogFile.next_index indices.
Proof.
  destruct indices as [|i rest]; cbn [LogFile.next_index]; intros H.
  - split; [lia | easy].
  - destruct (list_max_bounds rest i) as (H1 & H2 & H3).
    rewrite Forall_forall in H. specialize (H _ H3). split; [lia|].
    intros j [->|Hj]; [lia|]. specialize (H2 j Hj). lia.
Qed.

(** The index that the chosen name itself would contribute. *)
Lemma suffix_index_of_name base n :
  0 <= n <= 25 ->
  LogFile.suffix_index base (base ++ "_" ++ chr (ord_char "a" + n) ++ ".tsv")
  = Some n.
Proof.
  intros Hn. unfold chr. change (ord_char "a") with 97.
  set (c := ascii_of_nat (Z.to_nat (97 + n))).
  assert (Hc : nat_of_ascii c = Z.to_nat (97 + n)).
  { subst c. apply nat_ascii_embedding. lia. }
  change (base ++ "_" ++ String c "" ++ ".tsv")
    with (base ++ String "_" (String c ".tsv")).
  set (tail := String "_" (String c ".tsv")).
  assert (Hlen : String.length (base ++ tail) = (String.length base + 6)%nat).
  { rewrite length_app. reflexivity. }
  assert (Hne : String.eqb (base ++ tail) (base ++ ".tsv") = false).
  { rewrite eqb_app. reflexivity. }
  assert (Hstart : startswith (base ++ tail) (base ++ "_") = true).
  { rewrite startswith_app. unfold tail. cbn [startswith].
    now rewrite Ascii.eqb_refl. }
  assert (Hend : endswith (base ++ tail) ".tsv" = true).
  { unfold endswith. rewrite Hlen.
    change (String.length ".tsv") with 4%nat.
    replace (String.length base + 6 - 4)%nat
      with (String.length base + 2)%nat by lia.
    rewrite drop_app. apply andb_true_iff.
    split; [apply Nat.leb_le; lia | reflexivity]. }
  assert (Hslice : slice (base ++ tail) (len base + 1) (-4) = String c "").
  { unfold slice, slice_index, len. rewrite Hlen.
    replace (Z.of_nat (String.length base) + 1 <? 0)%Z with false by lia.
    change (-4 <? 0)%Z with true. cbn iota.
    replace (Z.to_nat (Z.min (Z.max (Z.of_nat (String.length base) + 1) 0)
                         (Z.of_nat (String.length base + 6))))
      with (String.length base + 1)%nat by lia.
    replace (Z.to_nat (Z.min (Z.max (-4 + Z.of_nat (String.length base + 6)) 0)
                         (Z.of_nat (String.length base + 6))))
      with (String.length base + 2)%nat by lia.
    rewrite drop_app.
    replace (String.length base + 2 - (String.length base + 1))%nat
      with 1%nat by lia.
    reflexivity. }
  assert (Hlow : is_lower c = true).
  { unfold is_lower. rewrite Hc. apply andb_true_iff.
    split; apply Nat.leb_le; lia. }
  assert (Hup : is_upper c = false).
  { unfold is_upper. rewrite Hc. apply andb_false_iff. right.
    apply Nat.leb_gt. lia. }
  unfold LogFile.suffix_index. rewrite Hne, Hstart, Hend, Hslice.
  cbn [andb]. unfold isalpha, len.
  cbn [String.length String.eqb all_chars negb andb lower ord].
  unfold is_alpha, lower_char. rewrite Hlow, Hup. cbn [orb andb Z.eqb].
  change (Z.of_nat 1 =? 1)%Z with true. cbn iota.
  unfold ord_char. rewrite Hc. change (nat_of_ascii "a") with 97%nat.
  cbn [andb]. f_equal. lia.
Qed.

Lemma csv_file_name_fresh participant_id listdir :
  let base := LogFile.base_name participant_id in
  let indices :=
    LogFile.collect_indices base (filter (fun f => startswith f base) listdir) in
  mem (base ++ ".tsv") listdir = true ->
  Forall (fun i => i < 25) indices ->
  exists c,
    is_lower c = true
    /\ LogFile.csv_file_name participant_id listdir
       = (base ++ "_" ++ String c "" ++ ".tsv")%string
    /\ ~ In (LogFile.csv_file_name participant_id listdir) listdir.
Proof.
  intros base indices Hbase Hz.
  assert (Hall : Forall (fun i => 0 <= i < 25) indices).
  { pose proof (collect_indices_range base
                  (filter (fun f => startswith f base) listdir)) as Hr.
    fold indices in Hr. rewrite Forall_forall in *.
    intros i Hi. specialize (Hr i Hi). specialize (Hz i Hi).
    cbn beta in *. lia. }
  destruct (next_index_bounds indices Hall) as [Hn Hlt].
  unfold LogFile.csv_file_name. fold base. rewrite Hbase. cbv zeta.
  fold indices. unfold LogFile.next_suffix.
  exists (ascii_of_nat (Z.to_nat (ord_char "a" + LogFile.next_index indices))).
  split; [|split].
  - unfold is_lower. rewrite nat_ascii_embedding
      by (change (ord_char "a") with 97; lia).
    change (ord_char "a") with 97.
    apply andb_true_iff. split; apply Nat.leb_le; lia.
  - reflexivity.
  - intros Hin.
    assert (Hi : In (LogFile.next_index indices) indices).
    { unfold indices at 2.
      eapply collect_indices_in; [|apply suffix_index_of_name; exact Hn].
      apply filter_In. split; [exact Hin | apply startswith_self_app]. }
    apply Hlt in Hi. lia.
Qed.

End FreshName.

(** * Further properties of the routines *)

(** ** The instruction pages *)

Section Pages.

Lemma show_instructions_list_from_unfold polls : forall index n w,
  kb w = polls ->
  show_instructions_list_from polls index n w
  = if (index <? n)%nat then
      bind show_instructions
        (fun result => show_instructions_list_at (turn_page result index) n) w
    else Done tt w.
Proof.
  induction polls as [|keys rest IH]; intros index n w Hk;
    cbn [show_instructions_list_from];
    destruct (index <? n)%nat eqn:Hi; try reflexivity;
    unfold bind, show_instructions; rewrite Hk;
    cbn [show_instructions_from]; try reflexivity.
  destruct (mem "escape" keys); [reflexivity|].
  destruct (mem "left" keys); [reflexivity|].
  destruct (mem "return" keys); [reflexivity|].
  rewrite (IH index n (set_kb rest w) eq_refl), Hi.
  reflexivity.
Qed.

Lemma show_instructions_list_from_done polls : forall index n w u w',
  kb w = polls ->
  show_instructions_list_from polls index n w = Done u w' ->
  exists consumed,
    kb w = consumed ++ kb w'
    /\ forallb no_escape consumed = true
    /\ (n - index <= count_next consumed)%nat
    /\ mouse w' = mouse w /\ serial w' = serial w /\ uniform w' = uniform w
    /\ csv w' = csv w /\ trace w' = trace w.
Proof.
  induction polls as [|keys rest IH]; intros index n w u w' Hk;
    cbn [show_instructions_list_from];
    destruct (index <? n)%nat eqn:Hi.
  - discriminate.
  - intros [= <- <-]. exists []. apply Nat.ltb_ge in Hi.
    cbn. repeat split; auto. lia.
  - apply Nat.ltb_lt in Hi.
    destruct (mem "escape" keys) eqn:He; [discriminate|].
    assert (Hstep : forall index',
              (n - index <= (if is_next keys then 1 else 0) + (n - index'))%nat ->
              show_instructions_list_from rest index' n (set_kb rest w)
              = Done u w' ->
              exists consumed,
                kb w = consumed ++ kb w'
                /\ forallb no_escape consumed = true
                /\ (n - index <= count_next consumed)%nat
                /\ mouse w' = mouse w /\ serial w' = serial w
                /\ uniform w' = uniform w
                /\ csv w' = csv w /\ trace w' = trace w).
    { intros index' Hle H. apply IH in H; [|reflexivity].
      destruct H as (consumed & H1 & H2 & H3 & H4).
      exists (keys :: consumed). cbn [kb set_kb] in H1.
      unfold count_next in *. cbn [filter forallb].
      unfold no_escape at 1. rewrite He. cbn [negb andb].
      split; [now rewrite Hk, H1|]. split; [exact H2|].
      split; [|exact H4].
      destruct (is_next keys); cbn [List.length]; lia. }
    unfold is_next in Hstep. rewrite He in Hstep. cbn [negb andb] in Hstep.
    destruct (mem "left" keys).
    { intros H. eapply Hstep; [|exact H]. cbn [negb andb].
      destruct (0 <? index)%nat; lia. }
    destruct (mem "return" keys); intros H;
      (eapply Hstep; [|exact H]); cbn [negb andb]; lia.
  - intros [= <- <-]. exists []. apply Nat.ltb_ge in Hi.
    cbn. repeat split; auto. lia.
Qed.

End Pages.

(** X2.  When [show_instructions_list] comes back from [n] pages, the
    polls it has used up hold no [escape] and at least [n] of them turned
    a page forward (they hold [return] and not [left]); nothing was
    logged and mouse and serial port were left alone. *)
Theorem X2_pages_need_return (n : nat) (w : World) (u : unit) (w' : World) :
  show_instructions_list n w = Done u w' ->
  exists consumed,
    kb w = consumed ++ kb w'
    /\ forallb no_escape consumed = true
    /\ (n <= count_next consumed)%nat
    /\ mouse w' = mouse w /\ serial w' = serial w /\ csv w' = csv w.
Proof.
  intros H. apply show_instructions_list_from_done in H; [|reflexivity].
  destruct H as (consumed & H1 & H2 & H3 & H4 & H5 & _ & H6 & _).
  exists consumed. rewrite Nat.sub_0_r in H3. now repeat split.
Qed.

Lemma X2_witness :
  let w := mkWorld [["left"]; ["return"]; []; ["return"]; ["left"];
                    ["return"]; ["return"]; ["x"]] [] [] [] [] [] in
  exists w' consumed,
    show_instructions_list 3 w = Done tt w'
    /\ kb w = consumed ++ kb w'
    /\ forallb no_escape consumed = true
    /\ (3 <= count_next consumed)%nat
    /\ mouse w' = mouse w /\ serial w' = serial w /\ csv w' = csv w.
Proof.
  cbv zeta.
  set (w := mkWorld _ _ _ _ _ _).
  destruct (show_instructions_list 3 w) as [u w'| | |] eqn:H;
    try discriminate.
  destruct (X2_pages_need_return 3 w u w' H) as (consumed & Hc).
  exists w', consumed. destruct u. split; [reflexivity | exact Hc].
Defined.

(** ** Waiting for the operator *)

(** X3.  [wait_for_key_press] passes over the polls that hold neither
    [return] nor [escape]; the first other poll decides: with [return] in
    it the routine comes back, even when [escape] is in it too, and with
    [escape] alone the session quits.  Only keyboard polls are used up. *)
Theorem X3_wait_first_decisive_poll (w : World)
  (before : list (list string)) (keys : list string)
  (rest : list (list string)) :
  kb w = before ++ keys :: rest ->
  forallb idle before = true ->
  wait_for_key_press w
  = if mem "return" keys then Done tt (set_kb rest w)
    else if mem "escape" keys then Quit (set_kb rest w)
    else wait_for_key_press (set_kb rest w).
Proof.
  unfold wait_for_key_press. revert w.
  induction before as [|b before IH]; intros w Hk Hidle; rewrite Hk.
  - cbn [app wait_for_key_press_from].
    destruct (mem "return" keys); [reflexivity|].
    destruct (mem "escape" keys); reflexivity.
  - cbn [forallb] in Hidle. apply andb_true_iff in Hidle as [Hb Hidle].
    unfold idle in Hb. apply andb_true_iff in Hb as [Hr He].
    apply negb_true_iff in Hr, He.
    cbn [app wait_for_key_press_from]. rewrite Hr, He.
    apply (IH (set_kb (before ++ keys :: rest) w) eq_refl Hidle).
Qed.

Lemma X3_witness :
  let w := mkWorld [[]; ["a"]; ["escape"; "return"]; ["escape"]] [] [] []
             [] [] in
  wait_for_key_press w = Done tt (set_kb [["escape"]] w).
Proof.
  cbv zeta.
  exact (X3_wait_first_decisive_poll
           (mkWorld [[]; ["a"]; ["escape"; "return"]; ["escape"]] [] [] []
              [] [])
           [[]; ["a"]] ["escape"; "return"] [["escape"]] eq_refl eq_refl).
Defined.

(** ** The response loop *)

Section ResponseLoop.

Lemma first_clicked_spec l : forall i r,
  first_clicked i l = Some r ->
  (i <= r)%nat
  /\ nth_error l (r - i) = Some true
  /\ forall j, (i <= j < r)%nat -> nth_error l (j - i) = Some false.
Proof.
  induction l as [|b l IH]; intros i r; cbn [first_clicked]; [discriminate|].
  destruct b.
  - intros [= <-]. rewrite Nat.sub_diag. split; [lia|]. split; [reflexivity|].
    intros j Hj. lia.
  - intros H. apply IH in H as (H1 & H2 & H3). split; [lia|]. split.
    + replace (r - i)%nat with (S (r - S i)) by lia. exact H2.
    + intros j Hj. destruct (Nat.eq_dec j i) as [->|Hne].
      * now rewrite Nat.sub_diag.
      * replace (j - i)%nat with (S (j - S i)) by lia. apply H3. lia.
Qed.

Lemma selected_button_index_spec m n r :
  selected_button_index m n = Some r ->
  (r < n)%nat /\ contains m r = true
  /\ forall j, (j < r)%nat -> contains m j = false.
Proof.
  intros H. pose proof (selected_button_index_bound m n r H) as Hr.
  unfold selected_button_index in H.
  apply first_clicked_spec in H as (_ & H2 & H3).
  assert (Hnth : forall j, (j < n)%nat ->
            nth_error (map (contains m) (seq 0 n)) j = Some (contains m j)).
  { intros j Hj. rewrite nth_error_map, nth_error_seq.
    apply Nat.ltb_lt in Hj. now rewrite Hj. }
  rewrite Nat.sub_0_r, Hnth in H2 by exact Hr.
  split; [exact Hr|]. split; [congruence|].
  intros j Hj. specialize (H3 j (conj (Nat.le_0_l j) Hj)).
  rewrite Nat.sub_0_r, Hnth in H3 by lia. congruence.
Qed.

Lemma selected_none_no_choice m n :
  selected_button_index m n = None ->
  forallb (fun j => negb (contains m j)) (seq 0 n) = true.
Proof.
  unfold selected_button_index.
  assert (H : forall l i,
            first_clicked i (map (contains m) l) = None ->
            forallb (fun j => negb (contains m j)) l = true).
  { induction l as [|j l IH]; intros i; cbn; [reflexivity|].
    destruct (contains m j); [discriminate|]. apply IH. }
  apply H.
Qed.

Lemma record_response_from_done snaps n : forall w r w',
  mouse w = snaps ->
  record_response_from snaps n w = Done r w' ->
  exists skipped m polls,
    mouse w = skipped ++ m :: mouse w'
    /\ kb w = polls ++ kb w'
    /\ List.length polls = S (List.length skipped)
    /\ forallb no_escape polls = true
    /\ forallb (no_choice n) skipped = true
    /\ pressed m = true
    /\ selected_button_index m n = Some r
    /\ serial w' = serial w /\ uniform w' = uniform w
    /\ csv w' = csv w /\ trace w' = trace w.
Proof.
  induction snaps as [|m rest IH]; intros w r w' Hm;
    cbn [record_response_from]; [discriminate|].
  unfold getKeys. cbn [kb set_mouse].
  destruct (kb w) as [|keys polls] eqn:Hk; [discriminate|].
  destruct (mem "escape" keys) eqn:He; [discriminate|].
  destruct (if pressed m then selected_button_index m n else None)
    as [r0|] eqn:Hsel.
  - intros [= <- <-]. exists [], m, [keys]. cbn.
    unfold no_escape. rewrite He, Hm.
    destruct (pressed m); [|discriminate]. now repeat split.
  - intros H. apply IH in H; [|reflexivity].
    destruct H as (skipped & m0 & polls0 & H1 & H2 & H3 & H4 & H5 & H6).
    cbn [mouse kb set_kb set_mouse] in H1, H2.
    exists (m :: skipped), m0, (keys :: polls0). cbn.
    unfold no_escape at 1. rewrite He, Hm, H1, H2, H3.
    assert (Hno : no_choice n m = true).
    { unfold no_choice. destruct (pressed m); [|reflexivity].
      now apply selected_none_no_choice. }
    rewrite Hno. cbn. now repeat split.
Qed.

End ResponseLoop.

(** X4.  A response loop over [n] buttons that comes back with [r] has
    looked at the mouse until a look with the left button pressed and the
    pointer over a button: [r] is below [n], the pointer is over button
    [r] and over no button before it.  The earlier looks gave no choice;
    each look went with one keyboard poll, and none of those polls held
    [escape].  Nothing was logged or shown. *)
Theorem X4_response_is_first_button_under_press (n : nat) (w : World)
  (r : nat) (w' : World) :
  record_response n w = Done r w' ->
  exists skipped m polls,
    mouse w = skipped ++ m :: mouse w'
    /\ kb w = polls ++ kb w'
    /\ List.length polls = S (List.length skipped)
    /\ forallb no_escape polls = true
    /\ forallb (no_choice n) skipped = true
    /\ pressed m = true
    /\ (r < n)%nat
    /\ contains m r = true
    /\ (forall j, (j < r)%nat -> contains m j = false)
    /\ csv w' = csv w /\ trace w' = trace w.
Proof.
  intros H. apply record_response_from_done in H; [|reflexivity].
  destruct H as (skipped & m & polls & H1 & H2 & H3 & H4 & H5 & H6 & H7
                 & _ & _ & H8 & H9).
  apply selected_button_index_spec in H7 as (Hr & Hc & Hfirst).
  exists skipped, m, polls. now repeat split.
Qed.

Lemma X4_witness :
  let w := mkWorld [[]; ["x"]; []; ["escape"]]
             [mkMouse (Nat.eqb 1) false 0; mkMouse (fun _ => false) true 0;
              mkMouse (Nat.leb 1) true 0] [] [] [] [] in
  exists w' skipped m polls,
    record_response 3 w = Done 1%nat w'
    /\ mouse w = skipped ++ m :: mouse w'
    /\ kb w = polls ++ kb w'
    /\ List.length polls = S (List.length skipped)
    /\ forallb no_escape polls = true
    /\ forallb (no_choice 3) skipped = true
    /\ pressed m = true
    /\ (1 < 3)%nat
    /\ contains m 1 = true
    /\ (forall j, (j < 1)%nat -> contains m j = false)
    /\ csv w' = csv w /\ trace w' = trace w.
Proof.
  cbv zeta.
  set (w := mkWorld _ _ _ _ _ _).
  destruct (record_response 3 w) as [r w'| | |] eqn:H; try discriminate.
  assert (Hr : r = 1%nat) by (vm_compute in H; congruence).
  subst r.
  destruct (X4_response_is_first_button_under_press 3 w 1 w' H)
    as (skipped & m & polls & Hc).
  exists w', skipped, m, polls. split; [reflexivity | exact Hc].
Defined.

(** ** The continue-or-stop question *)

Lemma record_response_never_raises n w e w' :
  record_response n w <> Raised e w'.
Proof. apply record_response_from_never_raises. Qed.

(** X5.  [ask_run_another] returns ['again'] or ['stop'] and nothing
    else, and no exception leaves it; when it comes back it has shown its
    question, waited two seconds after the click, and logged nothing. *)
Theorem X5_again_or_stop (w : World) :
  (forall next_action w',
      ask_run_another w = Done next_action w' ->
      (next_action = "again" \/ next_action = "stop")
      /\ csv w' = csv w
      /\ trace w' = trace w ++ [Show AnotherQuestion; Wait 2000])
  /\ (forall e w', ask_run_another w <> Raised e w').
Proof.
  unfold ask_run_another. split.
  - intros next_action w' H.
    apply bind_done in H as (? & w1 & H1 & H). apply emit_done in H1. subst w1.
    apply bind_done in H as (r & w2 & Hr & H).
    apply bind_done in H as (? & w3 & H3 & H). apply emit_done in H3. subst w3.
    apply record_response_from_done in Hr; [|reflexivity].
    destruct Hr as (skipped & m & polls & _ & _ & _ & _ & _ & _ & Hsel
                    & _ & _ & Hc & Ht).
    apply selected_button_index_bound in Hsel.
    cbn [csv trace add_event] in Hc, Ht.
    destruct r as [|[|r]]; cbn in Hsel; try lia;
      injection H as <- <-; cbn [csv trace add_event];
      rewrite Hc, Ht, <- app_assoc; auto.
  - intros e w' H.
    apply bind_raised in H as [H|(? & w1 & _ & H)]; [discriminate|].
    apply bind_raised in H as [H|(r & w2 & Hr & H)].
    { now apply record_response_never_raises in H. }
    apply record_response_from_bound in Hr.
    apply bind_raised in H as [H|(? & w3 & _ & H)]; [discriminate|].
    destruct r as [|[|r]]; try discriminate. cbn in Hr. lia.
Qed.

Lemma X5_witness :
  let w := mkWorld [[]; []] [mkMouse (fun _ => true) false 0;
                             mkMouse (Nat.eqb 1) true 0] [] [] [] [] in
  exists w',
    ask_run_another w = Done "stop" w'
    /\ ("stop" = "again" \/ "stop" = "stop")
    /\ csv w' = csv w
    /\ trace w' = trace w ++ [Show AnotherQuestion; Wait 2000].
Proof.
  cbv zeta.
  set (w := mkWorld _ _ _ _ _ _).
  destruct (ask_run_another w) as [a w'| | |] eqn:H; try discriminate.
  assert (Ha : a = "stop") by (vm_compute in H; congruence).
  subst a. exists w'. split; [reflexivity|].
  exact (proj1 (X5_again_or_stop w) "stop" w' H).
Defined.

(** ** A trial without the device *)

Section TestMode.

Lemma keeps_serial_ret {A} (x : A) : keeps_serial (ret x).
Proof. now intros w. Qed.

Lemma keeps_serial_emit e : keeps_serial (emit e).
Proof. now intros w. Qed.

Lemma keeps_serial_bind {A B} (c : M A) (k : A -> M B) :
  keeps_serial c -> (forall x, keeps_serial (k x)) -> keeps_serial (bind c k).
Proof.
  intros Hc Hk w. unfold bind. specialize (Hc w).
  destruct (c w) as [x w1| | |]; cbn in *; try exact Hc.
  now rewrite Hk.
Qed.

Lemma record_response_keeps_serial n : keeps_serial (record_response n).
Proof.
  unfold record_response. intros w. generalize (eq_refl (mouse w)).
  generalize (mouse w) at 1 3 as snaps. intros snaps. revert w.
  induction snaps as [|m rest IH]; intros w _; cbn [record_response_from];
    [reflexivity|].
  unfold getKeys. cbn [kb set_mouse].
  destruct (kb w) as [|keys polls]; [reflexivity|].
  destruct (mem "escape" keys); [reflexivity|].
  destruct (if pressed m then _ else _); [reflexivity|].
  now rewrite IH.
Qed.

Lemma code_response_keeps_serial r : keeps_serial (code_response r).
Proof.
  unfold code_response. intros w.
  destruct (nth_error _ r); [|reflexivity].
  destruct (nth_error _ r); reflexivity.
Qed.

Lemma trial_body_test_mode d :
  keeps_serial (trial_body d false)
  /\ confined screen_or_pause (trial_body d false).
Proof.
  unfold trial_body. split.
  - repeat (apply keeps_serial_bind; [|intros ?]);
      auto using keeps_serial_emit, record_response_keeps_serial,
        code_response_keeps_serial.
  - repeat (apply confined_bind; [|intros ?]);
      try (now apply confined_emit);
      auto using record_response_confined, code_response_confined.
Qed.

End TestMode.

(** X6.  With [is_integrated_external] off, a trial of either routine
    leaves the serial port alone however it ends: no read in store is
    used up, and the trial does nothing but show screens and pause (no
    [ser.write], no [ser.read]); it logs nothing. *)
Theorem X6_test_mode_leaves_port (current_delay : PyNum) :
  keeps_serial (run_staircase_trial current_delay false)
  /\ keeps_serial (run_set_delay_trial current_delay false)
  /\ confined screen_or_pause (run_staircase_trial current_delay false)
  /\ confined screen_or_pause (run_set_delay_trial current_delay false).
Proof.
  destruct (trial_body_test_mode current_delay) as [Hs Hc].
  split; [exact Hs|]. split; [exact Hs|].
  split; exact Hc.
Qed.

(** ** The acknowledgment must come in one read *)

Section ExactToken.

Lemma lstrip_length s :
  (String.length (lstrip s) <= String.length s)%nat
  /\ (String.length (lstrip s) = String.length s -> lstrip s = s).
Proof.
  induction s as [|c s [IH1 IH2]]; cbn [lstrip]; [now split|].
  destruct (is_space c); cbn [String.length]; split; auto; lia.
Qed.

Lemma rstrip_length s :
  (String.length (rstrip s) <= String.length s)%nat
  /\ (String.length (rstrip s) = String.length s -> rstrip s = s).
Proof.
  induction s as [|c s [IH1 IH2]]; cbn [rstrip]; [now split|].
  destruct (rstrip s) as [|d r] eqn:Hr.
  - destruct (is_space c); cbn [String.length] in *; split; try lia.
    intros H. destruct s; [reflexivity | cbn in H; lia].
  - cbn [String.length] in *. split; [lia|].
    intros H. f_equal. apply IH2. lia.
Qed.

Lemma strip_exact s t :
  strip s = t -> (String.length s <= String.length t)%nat -> s = t.
Proof.
  unfold strip. intros Ht Hlen.
  destruct (lstrip_length s) as [L1 L2].
  destruct (rstrip_length (lstrip s)) as [R1 R2].
  rewrite Ht in R1, R2.
  assert (E1 : lstrip s = s) by (apply L2; lia).
  rewrite E1 in R1, R2. symmetry. apply R2. lia.
Qed.

Lemma is_ended_exact received_data :
  (String.length received_data <= 6)%nat ->
  is_ended received_data = true -> received_data = "ENDED;".
Proof.
  intros Hlen H. unfold is_ended in H. apply String.eqb_eq in H.
  now apply strip_exact.
Qed.

End ExactToken.

(** X7.  A read of at most six bytes passes for the acknowledgment only
    if it is [ENDED;] letter for letter.  So when none of the reads that
    the port has in store is [ENDED;] as a whole (a token that arrives
    split over two reads, for one), a trial with the device never gets to
    its question and never returns a response. *)
Theorem X7_acknowledgment_in_one_read (current_delay : PyNum) (w : World)
  (p : string * Z) (w' : World) :
  Forall short_of_ended (serial w) ->
  run_staircase_trial current_delay true w <> Done p w'
  /\ run_set_delay_trial current_delay true w <> Done p w'.
Proof.
  intros Hall.
  assert (H : trial_body current_delay true w <> Done p w').
  { unfold trial_body. intros H.
    do 2 (apply bind_done in H as (? & ? & He & H); apply emit_done in He;
          subst).
    apply bind_done in H as (? & w3 & Hd & _).
    unfold device_exchange in Hd.
    do 2 (apply bind_done in Hd as (? & ? & He & Hd); apply emit_done in He;
          subst).
    apply bind_done in Hd as (? & w4 & Ha & _).
    apply await_ended_from_done in Ha; [|reflexivity].
    destruct Ha as (pre & ended & polls & H1 & _ & H3 & _).
    cbn [serial add_event] in H1.
    rewrite Forall_forall in Hall.
    destruct (Hall ended) as [Hlen Hne].
    { rewrite H1. apply in_elt. }
    apply Hne. now apply is_ended_exact. }
  split; exact H.
Qed.

Lemma X7_witness :
  let w := mkWorld [[]; []; []] [mkMouse (Nat.eqb 0) true 0]
             ["END"; "ED;"; " ENDED"] [] [] [] in
  run_staircase_trial (PyFloat 400) true w
  <> Done ("before", 0) (mkWorld [] [] [] [] [] []).
Proof.
  cbv zeta.
  refine (proj1 (X7_acknowledgment_in_one_read (PyFloat 400)
                   (mkWorld [[]; []; []] [mkMouse (Nat.eqb 0) true 0]
                      ["END"; "ED;"; " ENDED"] [] [] [])
                   ("before", 0) (mkWorld [] [] [] [] [] []) _)).
  cbn [serial].
  repeat (apply Forall_cons;
          [split; [cbn [String.length]; lia | discriminate]|]).
  apply Forall_nil.
Defined.

(** ** The content of the confidence box *)

Section BoxContent.

Lemma all_chars_app p s t :
  all_chars p (s ++ t)%string = all_chars p s && all_chars p t.
Proof.
  induction s as [|c s IH]; cbn; [reflexivity|].
  now rewrite IH, andb_assoc.
Qed.

Lemma take_length n : forall s,
  (String.length (take n s) <= String.length s)%nat.
Proof.
  induction n as [|n IH]; intros [|c s]; cbn; try lia.
  specialize (IH s). lia.
Qed.

Lemma take_all_chars p n : forall s,
  all_chars p s = true -> all_chars p (take n s) = true.
Proof.
  induction n as [|n IH]; intros [|c s]; cbn; auto.
  intros H. apply andb_true_iff in H as [Hc Hs]. now rewrite Hc, IH.
Qed.

Lemma drop_last_take s : drop_last s = take (String.length s - 1) s.
Proof.
  unfold drop_last, slice, slice_index, len. cbn [Z.ltb Z.compare].
  change (drop (Z.to_nat (Z.min (Z.max 0 0) (Z.of_nat (String.length s)))) s)
    with (drop (Z.to_nat (Z.min 0 (Z.of_nat (String.length s)))) s).
  replace (Z.to_nat (Z.min 0 (Z.of_nat (String.length s)))) with 0%nat by lia.
  change (-1 <? 0)%Z with true. cbn iota. cbn [drop].
  f_equal. lia.
Qed.

Lemma box_text_drop_last input_text :
  box_text input_text = true -> box_text (drop_last input_text) = true.
Proof.
  unfold box_text. intros H. apply andb_true_iff in H as [Hl Hd].
  apply Nat.leb_le in Hl. rewrite drop_last_take.
  apply andb_true_iff. split.
  - apply Nat.leb_le. pose proof (take_length (String.length input_text - 1)
                                    input_text). lia.
  - now apply take_all_chars.
Qed.

Lemma box_text_type_char input_text d :
  In d digit_keys ->
  box_text input_text = true -> box_text (type_char input_text d) = true.
Proof.
  unfold box_text, type_char, len. intros Hd H.
  destruct (Z.of_nat (String.length input_text) <? 3)%Z eqn:Hlt; [|exact H].
  apply andb_true_iff in H as [Hl Hdig].
  assert (Hone : String.length d = 1%nat /\ all_chars is_digit d = true).
  { cbn in Hd. repeat (destruct Hd as [<-|Hd]; [now split|]). easy. }
  destruct Hone as [H1 H2].
  rewrite all_chars_app, Hdig, H2, length_app, H1.
  apply andb_true_iff. split; [|reflexivity]. apply Nat.leb_le. lia.
Qed.

(** What the key loop does on one key of the list that [waitKeys] lets
    through. *)
Lemma handle_keys_step key keys' input_text :
  In key keyList ->
  (key = "return"
   /\ handle_keys (key :: keys') input_text
      = if valid_input input_text then
          match int input_text with
          | Some n => ret (inr n)
          | None => raise ValueError
          end
        else bind (emit (Show InvalidInput))
               (fun _ => handle_keys keys' input_text))
  \/ (key = "backspace"
      /\ handle_keys (key :: keys') input_text
         = handle_keys keys' (drop_last input_text))
  \/ (key = "escape"
      /\ handle_keys (key :: keys') input_text = core_quit)
  \/ (In (main_key key) digit_keys
      /\ handle_keys (key :: keys') input_text
         = handle_keys keys' (type_char input_text (main_key key))).
Proof.
  intros H. cbn in H.
  repeat (destruct H as [<-|H];
          [first [ left; split; reflexivity
                 | right; left; split; reflexivity
                 | right; right; left; split; reflexivity
                 | right; right; right; split; [cbn; tauto | reflexivity] ]|]).
  easy.
Qed.

Lemma filter_keyList poll :
  Forall (fun k => In k keyList) (filter (fun k => mem k keyList) poll).
Proof.
  apply Forall_forall. intros k Hk. apply filter_In in Hk as [_ Hk].
  unfold mem in Hk. apply existsb_exists in Hk as (x & Hx & Heq).
  apply String.eqb_eq in Heq. now subst.
Qed.

Lemma handle_keys_box keys : forall input_text w,
  Forall (fun k => In k keyList) keys ->
  box_text input_text = true ->
  evolves box_event w (world_of (handle_keys keys input_text w))
  /\ forall input_text' w',
       handle_keys keys input_text w = Done (inl input_text') w' ->
       box_text input_text' = true.
Proof.
  induction keys as [|key keys IH]; intros input_text w Hall Hbox.
  - cbn. split; [apply evolves_refl|]. now intros t w' [= <- _].
  - inversion Hall as [|k ks Hkey Hrest]; subst.
    destruct (handle_keys_step key keys input_text Hkey)
      as [[_ ->]|[[_ ->]|[[_ ->]|[Hd ->]]]].
    + destruct (valid_input input_text).
      * destruct (int input_text); cbn; split; try apply evolves_refl;
          discriminate.
      * unfold bind, emit.
        destruct (IH input_text (add_event (Show InvalidInput) w) Hrest Hbox)
          as [Hev Hinv].
        split; [|exact Hinv].
        eapply evolves_trans; [|exact Hev]. now apply evolves_event.
    + apply IH; [exact Hrest | now apply box_text_drop_last].
    + cbn. split; [apply evolves_refl | discriminate].
    + apply IH; [exact Hrest | now apply box_text_type_char].
Qed.

Lemma get_numeric_input_from_box polls : forall input_text w,
  box_text input_text = true ->
  evolves box_event w (world_of (get_numeric_input_from polls input_text w)).
Proof.
  induction polls as [|poll rest IH]; intros input_text w Hbox;
    cbn [get_numeric_input_from].
  - cbn. apply evolves_set_kb.
  - destruct (filter _ poll) as [|key keys] eqn:Hf.
    + eapply evolves_trans; [apply evolves_set_kb | now apply IH].
    + pose proof (filter_keyList poll) as Hall. rewrite Hf in Hall.
      destruct (handle_keys_box (key :: keys) input_text (set_kb rest w)
                  Hall Hbox) as [Hev Hinv].
      eapply evolves_trans; [apply evolves_set_kb|].
      destruct (handle_keys (key :: keys) input_text (set_kb rest w))
        as [[t|n] w2|w2|w2|e w2]; cbn in Hev |- *; try exact Hev.
      specialize (Hinv t w2 eq_refl).
      eapply evolves_trans; [exact Hev|].
      eapply evolves_trans; [|now apply IH].
      apply evolves_event. exact Hinv.
Qed.

End BoxContent.

(** X8.  However [get_numeric_input] ends and whatever is typed, the
    confidence box never holds more than three characters and never
    anything but digits: each time the box is drawn its content is
    within these limits; the routine shows its question, the box and the
    INVALID INPUT banner and does nothing else, and it logs nothing. *)
Theorem X8_box_holds_three_digits : confined box_event get_numeric_input.
Proof.
  intros w. unfold get_numeric_input.
  eapply evolves_trans; [|now apply get_numeric_input_from_box].
  eapply evolves_trans; [|now apply evolves_event].
  now apply evolves_event.
Qed.

(** ** Typing a number *)

Section TypedNumber.

Lemma is_digit_key c :
  is_digit c = true -> In (String c EmptyString) digit_keys.
Proof.
  unfold is_digit. intros H. apply andb_true_iff in H as [H1 H2].
  apply Nat.leb_le in H1, H2.
  rewrite <- (ascii_nat_embedding c).
  assert (Hn : (nat_of_ascii c = 48 \/ nat_of_ascii c = 49
                \/ nat_of_ascii c = 50 \/ nat_of_ascii c = 51
                \/ nat_of_ascii c = 52 \/ nat_of_ascii c = 53
                \/ nat_of_ascii c = 54 \/ nat_of_ascii c = 55
                \/ nat_of_ascii c = 56 \/ nat_of_ascii c = 57)%nat) by lia.
  repeat (destruct Hn as [->|Hn]; [cbn; tauto|]). rewrite Hn. cbn. tauto.
Qed.

(** One digit key, alone in its poll, is typed into the box when there is
    room. *)
Lemma type_one_digit d polls input_text w :
  In d digit_keys ->
  (String.length input_text < 3)%nat ->
  get_numeric_input_from ([d] :: polls) input_text w
  = get_numeric_input_from polls (input_text ++ d)
      (add_event (Prompt (input_text ++ d)) (set_kb polls w)).
Proof.
  intros Hd Hlen.
  assert (Ht : type_char input_text d = (input_text ++ d)%string).
  { unfold type_char, len.
    replace (Z.of_nat (String.length input_text) <? 3)%Z with true by lia.
    reflexivity. }
  cbn in Hd.
  repeat (destruct Hd as [<-|Hd];
          [cbn [get_numeric_input_from filter mem existsb keyList
                  String.eqb Ascii.eqb Bool.eqb orb andb handle_keys lookup
                  keypad_mapping];
           unfold ret; now rewrite Ht|]).
  easy.
Qed.

Lemma append_empty (s : string) : (s ++ "")%string = s.
Proof. induction s as [|c s IH]; cbn; [reflexivity | now rewrite IH]. Qed.

Lemma type_digits s : forall polls input_text w,
  all_chars is_digit s = true ->
  (String.length input_text + String.length s <= 3)%nat ->
  exists w2,
    get_numeric_input_from (typed s ++ polls) input_text w
    = get_numeric_input_from polls (input_text ++ s) w2
    /\ csv w2 = csv w
    /\ mouse w2 = mouse w /\ serial w2 = serial w.
Proof.
  induction s as [|c s IH]; intros polls input_text w Hd Hlen.
  - exists w. cbn [typed app]. rewrite append_empty. now repeat split.
  - cbn [all_chars] in Hd. apply andb_true_iff in Hd as [Hc Hs].
    cbn [String.length] in Hlen. cbn [typed app].
    rewrite type_one_digit by (try apply is_digit_key; auto; lia).
    destruct (IH polls (input_text ++ String c "")%string
                (add_event (Prompt (input_text ++ String c ""))
                   (set_kb (typed s ++ polls) w)) Hs)
      as (w2 & H1 & H2 & H3 & H4).
    { rewrite length_app. cbn. lia. }
    exists w2. rewrite H1.
    replace ((input_text ++ String c "") ++ s)%string
      with (input_text ++ String c s)%string.
    + now repeat split.
    + clear. induction input_text as [|a t IHt]; cbn; [reflexivity|].
      now rewrite IHt.
Qed.

(** The numerals of 0 to 100 are entries that the box accepts, and [int]
    reads each back as its number. *)
Lemma numerals_to_100 n :
  0 <= n <= 100 ->
  all_chars is_digit (str_int n) = true
  /\ (String.length (str_int n) <= 3)%nat
  /\ valid_input (str_int n) = true
  /\ int (str_int n) = Some n.
Proof.
  intros Hn.
  assert (Hall : forallb
                   (fun k => let s := str_int (Z.of_nat k) in
                             all_chars is_digit s
                             && (String.length s <=? 3)%nat
                             && valid_input s
                             && match int s with
                                | Some m => m =? Z.of_nat k
                                | None => false
                                end) (seq 0 101) = true)
    by (vm_compute; reflexivity).
  rewrite forallb_forall in Hall.
  specialize (Hall (Z.to_nat n)). rewrite Z2Nat.id in Hall by lia.
  cbv zeta in Hall.
  assert (Hin : In (Z.to_nat n) (seq 0 101)) by (apply in_seq; lia).
  apply Hall in Hin.
  apply andb_true_iff in Hin as [Hin H4].
  apply andb_true_iff in Hin as [Hin H3].
  apply andb_true_iff in Hin as [H1 H2].
  apply Nat.leb_le in H2.
  destruct (int (str_int n)) as [m|]; [|discriminate].
  apply Z.eqb_eq in H4. subst m. now repeat split.
Qed.

End TypedNumber.

(** X9.  Typing and reading back.  When the keys to come are the digits
    of the numeral of a number [n] from 0 to 100, one key to a poll, and
    then [return], [get_numeric_input] returns [n]; it has used up these
    polls and no others, and has logged nothing. *)
Theorem X9_typed_number_is_returned (n : Z) (rest : list (list string))
  (w : World) :
  0 <= n <= 100 ->
  kb w = typed (str_int n) ++ ["return"] :: rest ->
  exists w',
    get_numeric_input w = Done n w'
    /\ kb w' = rest
    /\ csv w' = csv w
    /\ mouse w' = mouse w /\ serial w' = serial w.
Proof.
  intros Hn Hk.
  destruct (numerals_to_100 n Hn) as (Hd & Hlen & Hv & Hi).
  unfold get_numeric_input. cbn [kb add_event]. rewrite Hk.
  destruct (type_digits (str_int n) (["return"] :: rest) ""
              (add_event (Prompt "")
                 (add_event (Show ConfidenceQuestion) w)) Hd)
    as (w2 & H1 & H2 & H3 & H4); [cbn; lia|].
  rewrite H1. cbn [append].
  cbn [get_numeric_input_from filter mem existsb keyList String.eqb
         Ascii.eqb Bool.eqb orb andb handle_keys].
  rewrite Hv, Hi. unfold ret.
  exists (set_kb rest w2). now repeat split.
Qed.

Lemma X9_witness :
  let w := mkWorld [["1"]; ["0"]; ["0"]; ["return"]; ["7"]] [] [] []
             [] [] in
  exists w',
    get_numeric_input w = Done 100 w'
    /\ kb w' = [["7"]]
    /\ csv w' = csv w
    /\ mouse w' = mouse w /\ serial w' = serial w.
Proof.
  cbv zeta.
  refine (X9_typed_number_is_returned 100 [["7"]]
            (mkWorld [["1"]; ["0"]; ["0"]; ["return"]; ["7"]] [] [] []
               [] []) _ eq_refl).
  lia.
Defined.

(** ** The numeric keypad *)

Section Keypad.

(** A key is either none of the keypad, or one of its ten keys. *)
Lemma keypad_cases key :
  lookup key keypad_mapping = None
  \/ In (key, main_key key)
        [("num_0", "0"); ("num_1", "1"); ("num_2", "2"); ("num_3", "3");
         ("num_4", "4"); ("num_5", "5"); ("num_6", "6"); ("num_7", "7");
         ("num_8", "8"); ("num_9", "9")].
Proof.
  unfold main_key, keypad_mapping. cbn [lookup].
  repeat match goal with
         | |- context [String.eqb key ?k] =>
             destruct (String.eqb_spec key k) as [->|_];
             [right; cbn; tauto|]
         end.
  now left.
Qed.

Lemma main_key_in_keyList key :
  mem (main_key key) keyList = mem key keyList.
Proof.
  destruct (keypad_cases key) as [H|H].
  - unfold main_key. now rewrite H.
  - cbn in H.
    repeat (destruct H as [[= <- <-]|H]; [reflexivity|]). easy.
Qed.

Lemma filter_main_key poll :
  filter (fun k => mem k keyList) (map main_key poll)
  = map main_key (filter (fun k => mem k keyList) poll).
Proof.
  induction poll as [|k poll IH]; cbn [map filter]; [reflexivity|].
  rewrite main_key_in_keyList, IH. now destruct (mem k keyList).
Qed.

Lemma handle_keys_main_key keys : forall input_text,
  handle_keys (map main_key keys) input_text = handle_keys keys input_text.
Proof.
  induction keys as [|key keys IH]; intros input_text; [reflexivity|].
  cbn [map].
  destruct (keypad_cases key) as [H|H].
  - unfold main_key at 1. rewrite H. cbn [handle_keys]. rewrite H.
    destruct (String.eqb key "return"); [now rewrite IH|].
    destruct (String.eqb key "backspace"); [apply IH|].
    destruct (String.eqb key "escape"); [reflexivity | apply IH].
  - cbn in H.
    repeat (destruct H as [[= <- <-]|H]; [cbn; apply IH|]). easy.
Qed.

Lemma handle_keys_set_kb keys : forall input_text k w,
  handle_keys keys input_text (set_kb k w)
  = outcome_map (set_kb k) (handle_keys keys input_text w).
Proof.
  induction keys as [|key keys IH]; intros input_text k w;
    cbn [handle_keys]; [reflexivity|].
  destruct (String.eqb key "return").
  { destruct (valid_input input_text).
    - destruct (int input_text); reflexivity.
    - unfold bind, emit. apply (IH input_text k (add_event _ w)). }
  destruct (String.eqb key "backspace"); [apply IH|].
  destruct (lookup key keypad_mapping); [apply IH|].
  destruct (String.eqb key "escape"); [reflexivity | apply IH].
Qed.

Lemma get_numeric_input_from_main_row polls : forall input_text k w,
  get_numeric_input_from (map (map main_key) polls) input_text (set_kb k w)
  = outcome_map on_main_row (get_numeric_input_from polls input_text w).
Proof.
  induction polls as [|poll rest IH]; intros input_text k w;
    cbn [map get_numeric_input_from]; [reflexivity|].
  rewrite filter_main_key.
  destruct (filter (fun k0 => mem k0 keyList) poll) as [|key keys].
  - cbn [map]. apply (IH input_text (map (map main_key) rest) (set_kb rest w)).
  - cbn [map].
    change (main_key key :: map main_key keys)
      with (map main_key (key :: keys)).
    rewrite handle_keys_main_key.
    change (set_kb (map (map main_key) rest) (set_kb k w))
      with (set_kb (map (map main_key) rest) w).
    rewrite (handle_keys_set_kb (key :: keys) input_text
               (map (map main_key) rest) w).
    rewrite (handle_keys_set_kb (key :: keys) input_text rest w).
    destruct (handle_keys (key :: keys) input_text w)
      as [[t|n] w2| | |]; cbn [outcome_map]; try reflexivity.
    apply (IH t (map (map main_key) rest)
             (add_event (Prompt t) (set_kb rest w2))).
Qed.

End Keypad.

(** X10.  The keys of the numeric keypad count as the digits of the main
    row: had every keypad key to come been pressed on the main row
    instead, [get_numeric_input] would end the same way, with the same
    value, the same screens and boxes and the same polls used up. *)
Theorem X10_keypad_as_main_row (w : World) :
  get_numeric_input (on_main_row w)
  = outcome_map on_main_row (get_numeric_input w).
Proof.
  unfold get_numeric_input.
  apply (get_numeric_input_from_main_row (kb w) ""
           (map (map main_key) (kb w))
           (add_event (Prompt "") (add_event (Show ConfidenceQuestion) w))).
Qed.

(** ** Slider positions *)

Section Sliders.

Lemma drawn_on_scale q : drawn q -> on_scale q.
Proof.
  intros [H1 H2]. split.
  - apply Qle_trans with 20%Q; [discriminate | exact H1].
  - apply Qle_trans with 80%Q; [exact H2 | discriminate].
Qed.

(** The marker stays on the scale when the mouse moves it. *)
Lemma moved_marker_on_scale slider_value markerPos :
  on_scale markerPos ->
  on_scale (if Qle_bool 0 slider_value && Qle_bool slider_value 100
            then slider_value else markerPos).
Proof.
  intros H. destruct (Qle_bool 0 slider_value && Qle_bool slider_value 100)
    eqn:Hb; [|exact H].
  apply andb_true_iff in Hb as [H1 H2].
  apply Qle_bool_iff in H1, H2. now split.
Qed.

Lemma question_response_from_answer polls um scale :
  forall markerPos w r w',
    List.length scale = 2%nat ->
    on_scale markerPos ->
    question_response_from polls um scale markerPos w = Done r w' ->
    scale_answer um r /\ csv w' = csv w /\ uniform w' = uniform w.
Proof.
  induction polls as [polls IH] using (well_founded_induction
    (well_founded_ltof _ (@List.length (list string)))).
  destruct polls as [|keys rest]; intros pos w r w' Hscale Hpos;
    cbn [question_response_from]; [discriminate|].
  destruct (mem "escape" keys); [discriminate|].
  destruct um.
  - cbn [mouse set_kb]. destruct (mouse w) as [|m snaps]; [discriminate|].
    destruct (pressed m).
    + intros [= <- <-]. split; [|now split]. now exists pos.
    + intros H. apply IH in H; auto.
      * unfold ltof. cbn. lia.
      * now apply moved_marker_on_scale.
  - destruct rest as [|keys2 rest2]; [discriminate|].
    destruct (mem "left" keys2).
    { intros [= <- <-]. split; [now left | now split]. }
    destruct (mem "right" keys2).
    { intros [= <- <-]. rewrite Hscale. split; [now right | now split]. }
    intros H. apply IH in H; auto. unfold ltof. cbn. lia.
Qed.

Lemma ask_question_answer um label question scale w u w' :
  List.length scale = 2%nat ->
  Forall drawn (uniform w) ->
  ask_question um (label, question, scale) w = Done u w' ->
  exists response,
    scale_answer um response
    /\ csv w' = csv w ++ [post_task_row label response]
    /\ exists draw, uniform w = draw :: uniform w'.
Proof.
  intros Hscale Hdraws. unfold ask_question.
  destruct (uniform w) as [|pos draws] eqn:Hu; [discriminate|].
  intros H. apply bind_done in H as (r & w2 & Hr & H).
  inversion Hdraws as [|x xs Hpos Hrest]; subst.
  apply question_response_from_answer in Hr as (Ha & Hc & Hun);
    [|exact Hscale | now apply drawn_on_scale].
  apply writerow_done in H. subst w'. exists r. split; [exact Ha|].
  cbn [csv add_row uniform]. rewrite Hc, Hun. split; [reflexivity|].
  now exists pos.
Qed.

Lemma confidence_mouse_from_on_scale polls : forall markerPos w q w',
  on_scale markerPos ->
  confidence_mouse_from polls markerPos w = Done q w' ->
  on_scale q /\ csv w' = csv w
  /\ trace w' = trace w ++ [Wait 1000].
Proof.
  induction polls as [|keys rest IH]; intros pos w q w' Hpos;
    cbn [confidence_mouse_from]; [discriminate|].
  destruct (mem "escape" keys); [discriminate|].
  cbn [mouse set_kb]. destruct (mouse w) as [|m snaps]; [discriminate|].
  destruct (pressed m).
  - intros [= <- <-]. split; [exact Hpos|]. now split.
  - intros H. apply IH in H; [exact H|]. now apply moved_marker_on_scale.
Qed.

End Sliders.

(** X11.  With the slider started by draws between 20 and 80, as
    [random.uniform(20, 80)] gives them, every answer that a completed
    questionnaire logs by mouse is a position between 0 and 100; by
    keyboard it is 0 or 1.  The questionnaire takes one draw per question
    and adds its three rows and nothing else to the log. *)
Theorem X11_questionnaire_answers_on_scale (use_mouse : bool) (w : World)
  (u : unit) (w' : World) :
  Forall drawn (uniform w) ->
  get_post_task_qs use_mouse w = Done u w' ->
  exists r1 r2 r3 d1 d2 d3,
    csv w' = csv w ++ [post_task_row "TaskGeneral" r1;
                        post_task_row "Difficulty" r2;
                        post_task_row "Breathless" r3]
    /\ scale_answer use_mouse r1
    /\ scale_answer use_mouse r2
    /\ scale_answer use_mouse r3
    /\ uniform w = d1 :: d2 :: d3 :: uniform w'.
Proof.
  unfold get_post_task_qs, questions. cbn [for_questions]. intros Hd H.
  apply bind_done in H as (? & w1 & H1 & H).
  apply bind_done in H as (? & w2 & H2 & H).
  apply bind_done in H as (? & w3 & H3 & H).
  injection H as _ <-.
  apply ask_question_answer in H1 as (r1 & A1 & C1 & d1 & U1);
    [|reflexivity | exact Hd].
  assert (Hd1 : Forall drawn (uniform w1)).
  { rewrite U1 in Hd. now inversion Hd. }
  apply ask_question_answer in H2 as (r2 & A2 & C2 & d2 & U2);
    [|reflexivity | exact Hd1].
  assert (Hd2 : Forall drawn (uniform w2)).
  { rewrite U2 in Hd1. now inversion Hd1. }
  apply ask_question_answer in H3 as (r3 & A3 & C3 & d3 & U3);
    [|reflexivity | exact Hd2].
  exists r1, r2, r3, d1, d2, d3. repeat split; auto.
  - rewrite C3, C2, C1, <- !app_assoc. reflexivity.
  - now rewrite U1, U2, U3.
Qed.

Lemma X11_witness :
  let w := mkWorld [[]; []; []; []; []]
             [mkMouse (fun _ => false) false 150;
              mkMouse (fun _ => false) false 900;
              mkMouse (fun _ => false) true 0;
              mkMouse (fun _ => false) true 0;
              mkMouse (fun _ => false) true 0] [] [50; 20; 80; 33]%Q
             [] [] in
  exists w' r1 r2 r3 d1 d2 d3,
    get_post_task_qs true w = Done tt w'
    /\ csv w' = csv w ++ [post_task_row "TaskGeneral" r1;
                           post_task_row "Difficulty" r2;
                           post_task_row "Breathless" r3]
    /\ scale_answer true r1
    /\ scale_answer true r2
    /\ scale_answer true r3
    /\ uniform w = d1 :: d2 :: d3 :: uniform w'.
Proof.
  cbv zeta.
  set (w := mkWorld _ _ _ _ _ _).
  assert (Hd : Forall drawn (uniform w)).
  { cbn [uniform w].
    repeat (apply Forall_cons; [split; discriminate|]). apply Forall_nil. }
  destruct (get_post_task_qs true w) as [u w'| | |] eqn:H; try discriminate.
  destruct (X11_questionnaire_answers_on_scale true w u w' Hd H)
    as (r1 & r2 & r3 & d1 & d2 & d3 & Hc).
  exists w', r1, r2, r3, d1, d2, d3. destruct u.
  split; [reflexivity | exact Hc].
Defined.

(** X12.  [get_confidence_mouse], with its slider started by a draw
    between 20 and 80, returns a position between 0 and 100: the marker
    only follows the mouse to positions on the scale.  It logs nothing,
    and after its question it does nothing but wait one second after the
    click. *)
Theorem X12_confidence_by_mouse_on_scale (w : World) (q : Q) (w' : World) :
  Forall drawn (uniform w) ->
  get_confidence_mouse w = Done q w' ->
  on_scale q
  /\ csv w' = csv w
  /\ trace w' = trace w ++ [Show (Slider "How confident are you? (0-100)");
                            Wait 1000].
Proof.
  unfold get_confidence_mouse. intros Hd.
  destruct (uniform w) as [|pos draws]; [discriminate|].
  inversion Hd as [|x xs Hpos _]; subst.
  intros H. apply confidence_mouse_from_on_scale in H as (Hq & Hc & Ht);
    [|now apply drawn_on_scale].
  split; [exact Hq|]. split; [exact Hc|].
  cbn [trace add_event set_uniform] in Ht. now rewrite Ht, <- app_assoc.
Qed.

Lemma X12_witness :
  let w := mkWorld [[]; []; []]
             [mkMouse (fun _ => false) false 240;
              mkMouse (fun _ => false) false (-500);
              mkMouse (fun _ => false) true 0] [] [42]%Q [] [] in
  exists q w',
    get_confidence_mouse w = Done q w'
    /\ on_scale q
    /\ csv w' = csv w
    /\ trace w' = trace w ++ [Show (Slider "How confident are you? (0-100)");
                              Wait 1000].
Proof.
  cbv zeta.
  set (w := mkWorld _ _ _ _ _ _).
  assert (Hd : Forall drawn (uniform w)).
  { cbn [uniform w].
    repeat (apply Forall_cons; [split; discriminate|]). apply Forall_nil. }
  destruct (get_confidence_mouse w) as [q w'| | |] eqn:H; try discriminate.
  exists q, w'. split; [reflexivity|].
  exact (X12_confidence_by_mouse_on_scale w q w' Hd H).
Defined.

(** ** The length of the training phase *)

Section TrainingLength.

Lemma training_trials_rows hw values : forall i w u w',
  training_trials hw i values w = Done u w' ->
  exists rows,
    csv w' = csv w ++ rows
    /\ (List.length rows <= List.length values)%nat
    /\ (List.length rows = List.length values
        \/ (2 <= i + List.length rows)%nat).
Proof.
  induction values as [|delay rest IH]; intros i w u w' H.
  - injection H as _ <-. exists []. rewrite app_nil_r. cbn. auto.
  - apply training_pass in H
      as (button & code & w1 & confidence & w2 & H1 & H2 & H).
    apply (opens_with_run HeartImage) in H1
      as [C1 _]; [|reflexivity|apply trial_body_opens].
    apply (opens_with_run ConfidenceQuestion) in H2
      as [C2 _]; [|reflexivity|apply get_numeric_input_opens].
    cbv zeta in H.
    set (row := trial_row "Training" i delay button code confidence) in *.
    destruct (0 <? i)%nat eqn:Hi.
    + apply Nat.ltb_lt in Hi.
      destruct H as (next_action & w4 & H4 & H).
      apply (opens_with_run AnotherQuestion) in H4
        as [C4 _]; [|reflexivity|apply ask_run_another_opens].
      cbn [csv add_row] in C4.
      destruct (String.eqb next_action "stop").
      * subst w'. exists [row]. cbn [List.length].
        split; [now rewrite C4, C2, C1|]. split; lia.
      * apply IH in H as (rows & Hc & Hlen & Hstop).
        exists (row :: rows). cbn [List.length].
        split; [now rewrite Hc, C4, C2, C1, <- app_assoc|]. split; lia.
    + apply IH in H as (rows & Hc & Hlen & Hstop).
      cbn [csv add_row] in Hc.
      exists (row :: rows). cbn [List.length].
      split; [now rewrite Hc, C2, C1, <- app_assoc|]. split; lia.
Qed.

End TrainingLength.

(** X13.  A training phase on two or more preset delays that runs to its
    end has logged at least two rows and at most one per delay: the
    participant cannot leave the training before the second trial, since
    the continue-or-stop question is not put after the first. *)
Theorem X13_training_runs_two_trials (is_integrated_external : bool)
  (train_values : list PyNum) (w : World) (u : unit) (w' : World) :
  (2 <= List.length train_values)%nat ->
  training_trials is_integrated_external 0 train_values w = Done u w' ->
  exists rows,
    csv w' = csv w ++ rows
    /\ (2 <= List.length rows <= List.length train_values)%nat.
Proof.
  intros Hlen H. apply training_trials_rows in H as (rows & Hc & Hle & Hstop).
  exists rows. split; [exact Hc|]. lia.
Qed.

Lemma X13_witness :
  let click i := mkMouse (Nat.eqb i) true 0 in
  let w := mkWorld [[]; ["7"]; ["return"]; []; ["9"]; ["return"]; []]
             [click 0%nat; click 2%nat; click 1%nat] [] [] [] [] in
  exists rows,
    csv (world_of (training_trials false 0 [PyInt 100; PyInt 250; PyInt 0] w))
    = rows
    /\ (2 <= List.length rows <= 3)%nat.
Proof.
  cbv zeta.
  set (w := mkWorld _ _ _ _ _ _).
  destruct (training_trials false 0 [PyInt 100; PyInt 250; PyInt 0] w)
    as [u w'| | |] eqn:H; try discriminate.
  refine (X13_training_runs_two_trials false _ w u w' _ H). cbn. lia.
Defined.

(** ** The staircase phase and the session *)

Section Phase.

Lemma wait_for_key_press_done w u w' :
  wait_for_key_press w = Done u w' -> csv w' = csv w.
Proof.
  intros H. pose proof (wait_for_key_press_confined w) as [Hc _].
  now rewrite H in Hc.
Qed.

Lemma for_staircases_done hw n set : forall index w set' w',
  for_staircases hw index n set w = Done set' w' ->
  exists rows,
    csv w' = csv w ++ rows
    /\ phase_rows set rows
    /\ map name set' = map name set
    /\ (List.length rows <= trial_budget set)%nat.
Proof.
  induction set as [|staircase rest IH]; intros index w set' w' H.
  - injection H as <- <-. exists []. rewrite app_nil_r. now repeat split.
  - cbn [for_staircases] in H.
    apply bind_done in H as (s1 & w1 & H1 & H).
    apply bind_done in H as (? & w2 & H2 & H).
    apply bind_done in H as (rest' & w3 & H3 & H).
    injection H as <- <-.
    apply staircase_trials_done in H1
      as (block & evs & Hc1 & _ & Hr & Hlen & Hn & _).
    assert (Hc2 : csv w2 = csv w1).
    { destruct (index <? n - 1)%nat.
      - apply bind_done in H2 as (? & wa & Ha & H2).
        apply wait_for_key_press_done in Ha.
        apply bind_done in H2 as (? & wb & Hb & H2).
        apply emit_done in Hb, H2. subst. exact Ha.
      - now injection H2 as _ <-. }
    apply IH in H3 as (later & Hc3 & Hp & Hnames & Hbudget).
    exists (block ++ later). cbn [phase_rows map trial_budget fold_right].
    split; [now rewrite Hc3, Hc2, Hc1, app_assoc|].
    split; [now exists block, later|].
    split; [now rewrite Hn, Hnames|].
    rewrite List.length_app. fold (trial_budget rest). lia.
Qed.

End Phase.

(** X14.  A staircase phase that runs to its end has gone through the
    staircases in the order of the list and hands them back in that
    order: the rows it has logged are one block per staircase, each
    block bearing the name of its staircase, numbered from 1, with a
    button and its code and a confidence between 0 and 100 in every row,
    and no longer than the [nTrials] of the staircase; for the four
    staircases of the script that is at most sixty rows. *)
Theorem X14_phase_rows_by_staircase (is_integrated_external : bool)
  (set : list Staircase) (w : World) (set' : list Staircase) (w' : World) :
  staircase_phase is_integrated_external set w = Done set' w' ->
  exists rows,
    csv w' = csv w ++ rows
    /\ phase_rows set rows
    /\ map name set' = map name set
    /\ (List.length rows <= trial_budget set)%nat
    /\ trial_budget staircase_set = 60%nat.
Proof.
  intros H. apply for_staircases_done in H as (rows & H1 & H2 & H3 & H4).
  exists rows. now repeat split.
Qed.

Lemma X14_witness :
  let click := mkMouse (Nat.eqb 0) true 0 in
  let w := mkWorld [["escape"]; ["return"]; []; []; ["5"]; ["return"];
                    ["escape"]; ["return"]; ["escape"]; ["return"];
                    ["escape"]]
             [click] [] [] [] [] in
  exists set' w' rows,
    staircase_phase false staircase_set w = Done set' w'
    /\ csv w' = csv w ++ rows
    /\ phase_rows staircase_set rows
    /\ map name set' = map name staircase_set
    /\ (List.length rows <= trial_budget staircase_set)%nat
    /\ trial_budget staircase_set = 60%nat.
Proof.
  cbv zeta.
  set (w := mkWorld _ _ _ _ _ _).
  destruct (staircase_phase false staircase_set w) as [set' w'| | |] eqn:H;
    try discriminate.
  destruct (X14_phase_rows_by_staircase false staircase_set w set' w' H)
    as (rows & Hc).
  exists set', w', rows. split; [reflexivity | exact Hc].
Defined.

Section SessionLog.

Lemma get_post_task_qs_done um w u w' :
  get_post_task_qs um w = Done u w' ->
  exists r1 r2 r3,
    csv w' = csv w ++ [post_task_row "TaskGeneral" r1;
                        post_task_row "Difficulty" r2;
                        post_task_row "Breathless" r3].
Proof.
  unfold get_post_task_qs, questions. cbn [for_questions]. intros H.
  apply bind_done in H as (? & w1 & H1 & H).
  apply bind_done in H as (? & w2 & H2 & H).
  apply bind_done in H as (? & w3 & H3 & H).
  injection H as _ <-.
  apply ask_question_done in H1 as (r1 & _ & C1).
  apply ask_question_done in H2 as (r2 & _ & C2).
  apply ask_question_done in H3 as (r3 & _ & C3).
  exists r1, r2, r3. rewrite C3, C2, C1, <- !app_assoc. reflexivity.
Qed.

Lemma training_rows_width delays : forall i rows,
  training_rows i delays rows ->
  Forall (fun row => List.length row = List.length header) rows.
Proof.
  induction delays as [|d delays IH]; intros i [|row rows]; cbn; try easy.
  intros [(b & c & n & _ & _ & ->) H]. constructor; [reflexivity|].
  eapply IH, H.
Qed.

Lemma staircase_rows_width staircase_name rows : forall trial,
  staircase_rows staircase_name trial rows ->
  Forall (fun row => List.length row = List.length header) rows.
Proof.
  induction rows as [|row rows IH]; intros trial; cbn; [constructor|].
  intros [(d & b & c & n & _ & _ & ->) H]. constructor; [reflexivity|].
  eapply IH, H.
Qed.

Lemma phase_rows_width set : forall rows,
  phase_rows set rows ->
  Forall (fun row => List.length row = List.length header) rows.
Proof.
  induction set as [|s set IH]; intros rows; cbn [phase_rows].
  - intros ->. constructor.
  - intros (block & later & -> & Hb & _ & Hl).
    apply Forall_app. split; [eapply staircase_rows_width, Hb | now apply IH].
Qed.

End SessionLog.

(** X15.  The log of a session that runs to its end is, in this order:
    the row of the participant, the header, the rows of the training
    trials on the first [k] preset delays, the rows of the staircases
    block by block in the order of the list, and the three rows of the
    questionnaire.  Every row after the participant's has as many cells
    as the header.  The script hands back the staircases under their
    names and in their order. *)
Theorem X15_log_of_a_session (is_integrated_external : bool)
  (participant_id : string) (train_values : list PyNum) (w : World)
  (set' : list Staircase) (w' : World) :
  run_s_hdt is_integrated_external participant_id train_values w
  = Done set' w' ->
  exists k training staircases r1 r2 r3,
    csv w' = csv w
             ++ [[CStr "Participant ID"; CStr participant_id]; header]
             ++ training ++ staircases
             ++ [post_task_row "TaskGeneral" r1;
                 post_task_row "Difficulty" r2;
                 post_task_row "Breathless" r3]
    /\ (k <= List.length train_values)%nat
    /\ training_rows 0 (firstn k train_values) training
    /\ phase_rows staircase_set staircases
    /\ Forall (fun row => List.length row = List.length header)
         (training ++ staircases
          ++ [post_task_row "TaskGeneral" r1; post_task_row "Difficulty" r2;
              post_task_row "Breathless" r3])
    /\ map name set' = map name staircase_set.
Proof.
  unfold run_s_hdt. intros H.
  apply bind_done in H as (? & wa & Ha & H). apply writerow_done in Ha.
  apply bind_done in H as (? & wb & Hb & H). apply writerow_done in Hb.
  apply bind_done in H as (? & wc & Hc & H). apply emit_done in Hc.
  apply bind_done in H as (? & wd & Hd & H).
  apply show_instructions_list_from_done in Hd; [|reflexivity].
  destruct Hd as (_ & _ & _ & _ & _ & _ & _ & Hd & _).
  apply bind_done in H as (? & we & He & H). apply emit_done in He.
  apply bind_done in H as (? & wf & Hf & H). apply emit_done in Hf.
  apply bind_done in H as (? & wg & Hg & H).
  apply training_trials_done in Hg
    as (k & training & evs & Hk & Hg & Htr & _ & _).
  apply bind_done in H as (? & wh & Hh & H).
  apply wait_for_key_press_done in Hh.
  apply bind_done in H as (? & wi & Hi & H). apply emit_done in Hi.
  apply bind_done in H as (? & wj & Hj & H). apply emit_done in Hj.
  apply bind_done in H as (set1 & wk & Hph & H).
  unfold staircase_phase in Hph.
  apply for_staircases_done in Hph as (staircases & Hph & Hrows & Hnames & _).
  apply bind_done in H as (? & wl & Hq & H).
  apply get_post_task_qs_done in Hq as (r1 & r2 & r3 & Hq).
  apply bind_done in H as (? & wm & Hm & H). apply emit_done in Hm.
  apply bind_done in H as (? & wn & Hn & H). apply emit_done in Hn.
  injection H as <- <-. subst wn wm wj wi wf we wc wb wa.
  exists k, training, staircases, r1, r2, r3.
  split; [|split; [exact Hk|split; [exact Htr|split; [exact Hrows|split]]]].
  - cbn [csv add_event add_row] in *.
    rewrite Hq, Hph, Hh, Hg, Hd, <- !app_assoc. reflexivity.
  - apply Forall_app. split; [eapply training_rows_width, Htr|].
    apply Forall_app. split; [exact (phase_rows_width _ _ Hrows)|].
    now repeat constructor.
  - exact Hnames.
Qed.

Lemma X15_witness :
  let click i := mkMouse (Nat.eqb i) true 0 in
  let w := mkWorld [["return"]; ["return"]; ["return"]; ["return"];
                    []; ["7"]; ["return"]; []; ["9"]; ["return"]; [];
                    ["return"];
                    ["escape"]; ["return"]; ["escape"]; ["return"];
                    ["escape"]; ["return"]; ["escape"];
                    []; []; []]
             [click 0%nat; click 2%nat; click 1%nat;
              click 0%nat; click 0%nat; click 0%nat] [] [50; 20; 80]%Q
             [] [] in
  exists set' w' k training staircases r1 r2 r3,
    run_s_hdt false "001" [PyInt 100; PyInt 250; PyInt 0] w = Done set' w'
    /\ csv w' = csv w
                ++ [[CStr "Participant ID"; CStr "001"]; header]
                ++ training ++ staircases
                ++ [post_task_row "TaskGeneral" r1;
                    post_task_row "Difficulty" r2;
                    post_task_row "Breathless" r3]
    /\ (k <= 3)%nat
    /\ training_rows 0 (firstn k [PyInt 100; PyInt 250; PyInt 0]) training
    /\ phase_rows staircase_set staircases
    /\ Forall (fun row => List.length row = List.length header)
         (training ++ staircases
          ++ [post_task_row "TaskGeneral" r1; post_task_row "Difficulty" r2;
              post_task_row "Breathless" r3])
    /\ map name set' = map name staircase_set.
Proof.
  cbv zeta.
  set (w := mkWorld _ _ _ _ _ _).
  destruct (run_s_hdt false "001" [PyInt 100; PyInt 250; PyInt 0] w)
    as [set' w'| | |] eqn:H; try discriminate.
  destruct (X15_log_of_a_session false "001" _ w set' w' H)
    as (k & training & staircases & r1 & r2 & r3 & Hc).
  exists set', w', k, training, staircases, r1, r2, r3.
  split; [reflexivity | exact Hc].
Defined.

(** ** Which files count for the suffix *)

Section SuffixFiles.

Local Open Scope string_scope.

Lemma startswith_split s : forall p,
  startswith s p = true -> s = p ++ drop (String.length p) s.
Proof.
  induction s as [|c s IH]; intros [|d p]; cbn; try easy.
  intros H. apply andb_true_iff in H as [Hc Hp].
  apply Ascii.eqb_eq in Hc. subst d. f_equal. now apply IH.
Qed.

Lemma take_length_min n : forall s,
  String.length (take n s) = Nat.min n (String.length s).
Proof.
  induction n as [|n IH]; intros [|c s]; cbn; auto.
Qed.

Lemma drop_app_exact b x : drop (String.length b) (b ++ x) = x.
Proof.
  rewrite <- (Nat.add_0_r (String.length b)). apply drop_app.
Qed.

(** The index that a file named with a letter contributes. *)
Lemma suffix_index_letter base c :
  is_alpha c = true ->
  LogFile.suffix_index base (base ++ String "_" (String c ".tsv"))
  = Some (ord_char (lower_char c) - 97)%Z.
Proof.
  intros Hc. set (tail := String "_" (String c ".tsv")).
  assert (Hlen : String.length (base ++ tail) = (String.length base + 6)%nat).
  { rewrite length_app. reflexivity. }
  assert (Hne : String.eqb (base ++ tail) (base ++ ".tsv") = false).
  { rewrite eqb_app. reflexivity. }
  assert (Hstart : startswith (base ++ tail) (base ++ "_") = true).
  { rewrite startswith_app. unfold tail. cbn [startswith].
    now rewrite Ascii.eqb_refl. }
  assert (Hend : endswith (base ++ tail) ".tsv" = true).
  { unfold endswith. rewrite Hlen.
    change (String.length ".tsv") with 4%nat.
    replace (String.length base + 6 - 4)%nat
      with (String.length base + 2)%nat by lia.
    rewrite drop_app. apply andb_true_iff.
    split; [apply Nat.leb_le; lia | reflexivity]. }
  assert (Hslice : slice (base ++ tail) (len base + 1) (-4) = String c "").
  { unfold slice, slice_index, len. rewrite Hlen.
    replace (Z.of_nat (String.length base) + 1 <? 0)%Z with false by lia.
    change (-4 <? 0)%Z with true. cbn iota.
    replace (Z.to_nat (Z.min (Z.max (Z.of_nat (String.length base) + 1) 0)
                         (Z.of_nat (String.length base + 6))))
      with (String.length base + 1)%nat by lia.
    replace (Z.to_nat (Z.min (Z.max (-4 + Z.of_nat (String.length base + 6)) 0)
                         (Z.of_nat (String.length base + 6))))
      with (String.length base + 2)%nat by lia.
    rewrite drop_app.
    replace (String.length base + 2 - (String.length base + 1))%nat
      with 1%nat by lia.
    reflexivity. }
  unfold LogFile.suffix_index. rewrite Hne, Hstart, Hend, Hslice.
  cbn [andb]. unfold isalpha, len.
  cbn [String.length String.eqb all_chars negb andb lower ord].
  rewrite Hc. reflexivity.
Qed.

(** A file that contributes an index is named with one letter. *)
Lemma suffix_index_inv base file i :
  LogFile.suffix_index base file = Some i ->
  exists c,
    is_alpha c = true
    /\ file = base ++ String "_" (String c ".tsv")
    /\ i = (ord_char (lower_char c) - 97)%Z.
Proof.
  unfold LogFile.suffix_index.
  destruct (String.eqb file (base ++ ".tsv")); [discriminate|].
  destruct (startswith file (base ++ "_")) eqn:Hstart; [|discriminate].
  destruct (endswith file ".tsv") eqn:Hend; [|discriminate].
  cbn [andb].
  apply startswith_split in Hstart. rewrite length_app in Hstart.
  cbn [String.length] in Hstart.
  set (x := drop (String.length base + 1) file) in *.
  assert (Hfile : file = base ++ String "_" x).
  { rewrite Hstart at 1. clearbody x. clear.
    induction base as [|a b IHb]; cbn; [reflexivity | now rewrite IHb]. }
  assert (Hlen : String.length file = (String.length base + 1 + String.length x)%nat).
  { rewrite Hfile at 1. rewrite length_app. cbn. lia. }
  unfold endswith in Hend. apply andb_true_iff in Hend as [H4 Hdrop].
  apply Nat.leb_le in H4. apply String.eqb_eq in Hdrop.
  change (String.length ".tsv") with 4%nat in H4, Hdrop.
  assert (Hslice : slice file (len base + 1) (-4)
                   = take (String.length x - 4) x).
  { unfold slice, slice_index, len.
    replace (Z.of_nat (String.length base) + 1 <? 0)%Z with false by lia.
    change (-4 <? 0)%Z with true. cbn iota.
    replace (Z.to_nat (Z.min (Z.max (Z.of_nat (String.length base) + 1) 0)
                         (Z.of_nat (String.length file))))
      with (String.length base + 1)%nat by lia.
    replace (Z.to_nat (Z.min (Z.max (-4 + Z.of_nat (String.length file)) 0)
                         (Z.of_nat (String.length file))))
      with (String.length file - 4)%nat by lia.
    fold x. f_equal. lia. }
  rewrite Hslice.
  destruct ((len (take (String.length x - 4) x) =? 1)%Z
            && isalpha (take (String.length x - 4) x)) eqn:Hone;
    [|discriminate].
  pose proof Hone as Hone'.
  apply one_letter in Hone' as (c & Htake & Hc).
  assert (Hx5 : String.length x = 5%nat).
  { pose proof (take_length_min (String.length x - 4) x) as Hm.
    rewrite Htake in Hm. cbn [String.length] in Hm. lia. }
  destruct x as [|c0 y]; [discriminate|].
  rewrite Hx5 in Htake. cbn in Htake. injection Htake as ->.
  assert (Hy : y = ".tsv").
  { rewrite <- Hdrop. rewrite Hfile at 2.
    replace (String.length file - 4)%nat with (String.length base + 2)%nat
      by (rewrite Hlen, Hx5; lia).
    rewrite drop_app. reflexivity. }
  subst y. cbn [String.length Nat.sub take lower ord].
  intros [= <-]. exists c. now repeat split.
Qed.

End SuffixFiles.

(** X16.  Among the files with ASCII names, those that count towards the
    next suffix are exactly those named [base_name], an underscore, one
    letter and [.tsv]; a capital letter counts as its small letter, and
    the index is the place of the letter in the alphabet, from 0.  Any
    other such file (the base file, a suffix of two letters or of a
    digit, another extension) counts for nothing. *)
Theorem X16_files_that_count (base_name file : string) (i : Z) :
  ascii_text file = true ->
  LogFile.suffix_index base_name file = Some i
  <-> exists c,
        is_alpha c = true
        /\ file = (base_name ++ "_" ++ String c "" ++ ".tsv")%string
        /\ i = ord_char (lower_char c) - ord_char "a".
Proof.
  intros _. split.
  - apply suffix_index_inv.
  - intros (c & Hc & -> & ->). now apply suffix_index_letter.
Qed.

Lemma X16_witness :
  ascii_text "sub-001_s_hdt_C.tsv" = true
  /\ LogFile.suffix_index "sub-001_s_hdt" "sub-001_s_hdt_C.tsv" = Some 2
  /\ exists c,
       is_alpha c = true
       /\ "sub-001_s_hdt_C.tsv"
          = ("sub-001_s_hdt" ++ "_" ++ String c "" ++ ".tsv")%string
       /\ 2 = ord_char (lower_char c) - ord_char "a".
Proof.
  split; [reflexivity|]. split; [reflexivity|].
  exact (proj1 (X16_files_that_count "sub-001_s_hdt" "sub-001_s_hdt_C.tsv" 2
                  eq_refl) eq_refl).
Defined.

(** ** The name of a new log file *)

Section NewLog.

Local Open Scope string_scope.




End NewLog.



(** ** What is sent and what is logged *)

Section SentAndLogged.

Lemma sent_refl w : sent_as_logged w w.
Proof. exists [], []. now rewrite !app_nil_r. Qed.

Lemma sent_trans w1 w2 w3 :
  sent_as_logged w1 w2 -> sent_as_logged w2 w3 -> sent_as_logged w1 w3.
Proof.
  intros (r1 & e1 & C1 & T1 & F1) (r2 & e2 & C2 & T2 & F2).
  exists (r1 ++ r2), (e1 ++ e2).
  rewrite C2, C1, T2, T1, <- !app_assoc, filter_app, flat_map_app, F1, F2.
  now repeat split.
Qed.

Lemma quiet_no_write evs : forallb quiet evs = true -> filter is_write evs = [].
Proof.
  induction evs as [|e evs IH]; cbn; [reflexivity|].
  unfold quiet at 1. intros H. apply andb_true_iff in H as [He H].
  destruct (is_write e); [discriminate | now apply IH].
Qed.

Lemma sent_quiet w w' : evolves quiet w w' -> sent_as_logged w w'.
Proof.
  intros [Hc (evs & Ht & Hq)]. exists [], evs.
  rewrite app_nil_r. split; [exact Hc|]. split; [exact Ht|].
  now apply quiet_no_write.
Qed.

Lemma get_numeric_input_quiet w n w' :
  get_numeric_input w = Done n w' -> evolves quiet w w'.
Proof.
  intros H. unfold get_numeric_input in H.
  pose proof (get_numeric_input_from_confined (kb w) ""
                (add_event (Prompt "") (add_event (Show ConfidenceQuestion) w)))
    as Hev.
  cbn [kb add_event] in H. rewrite H in Hev. cbn [world_of] in Hev.
  apply (evolves_trans _ _ (add_event (Show ConfidenceQuestion) w));
    [now apply evolves_event|].
  apply (evolves_trans _ _ (add_event (Prompt "")
                              (add_event (Show ConfidenceQuestion) w)));
    [now apply evolves_event|].
  eapply evolves_weaken; [|exact Hev].
  now intros [[]| | | | | |].
Qed.

Lemma ask_run_another_quiet : confined quiet ask_run_another.
Proof.
  unfold ask_run_another.
  repeat (apply confined_bind; [|intros ?]);
    try (now apply confined_emit);
    auto using record_response_confined.
  destruct (nth_error _ _); auto with frames.
Qed.

Lemma wait_for_key_press_quiet : confined quiet wait_for_key_press.
Proof.
  eapply confined_weaken; [|apply wait_for_key_press_confined].
  discriminate.
Qed.

(** A trial with the device, its rating and its row. *)
Lemma sent_trial staircase_name trial d button code w w1 confidence w2 :
  trial_body d true w = Done (button, code) w1 ->
  get_numeric_input w1 = Done confidence w2 ->
  sent_as_logged w
    (add_row (trial_row staircase_name trial d button code confidence) w2).
Proof.
  intros H1 H2.
  pose proof (trial_body_follows_protocol d w) as (e1 & T1 & F1 & _).
  rewrite H1 in T1. cbn [world_of] in T1.
  destruct (trial_body_opens d true w _ _ H1) as [C1 _].
  apply get_numeric_input_quiet in H2 as [C2 (e2 & T2 & Q2)].
  exists [trial_row staircase_name trial d button code confidence], (e1 ++ e2).
  cbn [csv trace add_row]. rewrite C2, C1, T2, T1, <- app_assoc, filter_app, F1.
  rewrite (quiet_no_write _ Q2). now repeat split.
Qed.

Lemma training_trials_sent values : forall i w u w',
  training_trials true i values w = Done u w' -> sent_as_logged w w'.
Proof.
  induction values as [|delay rest IH]; intros i w u w' H.
  - injection H as _ <-. apply sent_refl.
  - apply training_pass in H
      as (button & code & w1 & confidence & w2 & H1 & H2 & H).
    pose proof (sent_trial "Training" i delay button code w w1 confidence w2
                  H1 H2) as Hs.
    cbv zeta in H. eapply sent_trans; [exact Hs|].
    destruct (0 <? i)%nat.
    + destruct H as (next_action & w4 & H4 & H).
      pose proof (ask_run_another_quiet
                    (add_row (trial_row "Training" i delay button code
                                confidence) w2)) as Hq.
      rewrite H4 in Hq. cbn [world_of] in Hq.
      eapply sent_trans; [apply sent_quiet, Hq|].
      destruct (String.eqb next_action "stop").
      * subst w'. apply sent_refl.
      * eapply IH, H.
    + eapply IH, H.
Qed.

Lemma staircase_trials_sent remaining : forall trial s w s' w',
  staircase_trials true trial remaining s w = Done s' w' ->
  sent_as_logged w w'.
Proof.
  induction remaining as [|remaining IH]; intros trial s w s' w' H.
  - injection H as _ <-. apply sent_refl.
  - cbn [staircase_trials] in H.
    apply bind_done in H as (keys & w0 & Hk & H).
    assert (H0 : sent_as_logged w w0).
    { pose proof (confined_getKeys quiet w) as Hq.
      rewrite Hk in Hq. now apply sent_quiet. }
    eapply sent_trans; [exact H0|].
    destruct (mem "escape" keys).
    { apply bind_done in H as (? & wa & Ha & H).
      apply bind_done in H as (? & wb & Hb & H).
      apply emit_done in Ha, Hb. injection H as _ <-. subst wb wa.
      apply sent_quiet.
      apply (evolves_trans _ _ (add_event CsvClose w0));
        now apply evolves_event. }
    destruct (finished s).
    { injection H as _ <-. apply sent_refl. }
    apply bind_done in H as (s1 & w3 & Ht & H).
    apply staircase_trial_done in Ht
      as (button & code & w1 & confidence & w2 & _ & H1 & H2 & -> & _).
    eapply sent_trans; [|eapply IH, H].
    eapply sent_trial; eassumption.
Qed.

Lemma for_staircases_sent n set : forall index w set' w',
  for_staircases true index n set w = Done set' w' -> sent_as_logged w w'.
Proof.
  induction set as [|staircase rest IH]; intros index w set' w' H.
  - injection H as _ <-. apply sent_refl.
  - cbn [for_staircases] in H.
    apply bind_done in H as (s1 & w1 & H1 & H).
    apply bind_done in H as (? & w2 & H2 & H).
    apply bind_done in H as (rest' & w3 & H3 & H).
    injection H as _ <-.
    apply staircase_trials_sent in H1. apply IH in H3.
    eapply sent_trans; [exact H1|]. eapply sent_trans; [|exact H3].
    apply sent_quiet.
    assert (Hc : confined quiet
                   (if (index <? n - 1)%nat
                    then wait_for_key_press ;; emit (Wait 1000) ;; countdown
                    else ret tt)).
    { destruct (index <? n - 1)%nat; [|auto with frames].
      repeat (apply confined_bind; [|intros ?]);
        try (now apply confined_emit).
      apply wait_for_key_press_quiet. }
    specialize (Hc w1). rewrite H2 in Hc. exact Hc.
Qed.

End SentAndLogged.

(** X18.  In a session with the device, what is logged is what was sent:
    over the training phase, and over the staircase phase, the bytes
    written to the serial port are, row after row of the rows added to
    the log file, [DELAY], Python's [str] of the delay written under
    [Current Delay] and [;], followed by [START;], and nothing else.  No
    trial is logged that was not sent to the device on the logged delay,
    and none is sent and left out of the log, trials answered
    "same time" included. *)
Theorem X18_logged_as_sent (w w' : World) :
  (forall i train_values u,
      training_trials true i train_values w = Done u w' ->
      sent_as_logged w w')
  /\ (forall set set',
        staircase_phase true set w = Done set' w' ->
        sent_as_logged w w').
Proof.
  split.
  - intros i train_values u. apply training_trials_sent.
  - intros set set'. apply for_staircases_sent.
Qed.

Lemma X18_witness :
  let w := mkWorld [["return"]; ["num_7"]; ["return"]]
             [mkMouse (Nat.eqb 2) true 0] ["ENDED;"] [] [] [] in
  exists w',
    training_trials true 0 [PyInt 350] w = Done tt w'
    /\ csv w' = [trial_row "Training" 0 (PyInt 350) "after" 1 7]
    /\ filter is_write (trace w')
       = [SerialWrite "DELAY350;"; SerialWrite "START;"]
    /\ sent_as_logged w w'.
Proof.
  cbv zeta. eexists. split; [vm_compute; reflexivity|].
  split; [reflexivity|]. split; [reflexivity|].
  refine (proj1 (X18_logged_as_sent _ _) 0%nat [PyInt 350] tt _).
  vm_compute. reflexivity.
Defined.
